(** * opentrack: the pose-processing core of [tracker.cpp]

    A shallow embedding of [Tracker::map], [euler_to_rmat],
    [Tracker::t_compensate], [Tracker::logic] and [Tracker::run], with the
    properties of the pipeline and of the worker loop stated over it.

    Conventions of the embedding:
    - a C++ [double] is a binary64 primitive float;
    - [double x[n]] and [Pose] are lists of doubles, read with [!!!] and
      written with [<[i:=v]>]; every index the source uses is a constant or
      a loop counter within bounds, and the well-formedness predicate [wf]
      records the array sizes;
    - the objects reached through [libs], the curves of a [Mapping], [Quat],
      [dmat] and libm are interfaces, declared as type classes;
    - calls of [libs.pProtocol->pose] and [usleep] are recorded, in order,
      in the [trace] of the tracker state. *)

From Stdlib Require Import ZArith Lia Floats.PrimFloat.
From stdpp Require Import base list.

Set Warnings "-inexact-float".

Module Tracker.

Abbreviation double := float (only parsing).

#[global] Instance double_inhabited : Inhabited float := populate 0%float.

(** Modelled from the spec: the [Pose] class is declared in a header that is
    not part of this file; a pose is "an ordered 6-tuple of floating-point
    values" and a default-constructed one is the zero-valued pose. *)
Abbreviation Pose := (list float) (only parsing).

Definition Pose_new : Pose := replicate 6 0%float.

(** Modelled from the spec: the axis enumeration is declared in the same
    missing header; "axis 3 = yaw, axis 4 = pitch, axis 5 = roll". *)
Definition Yaw : nat := 3.

Definition Pitch : nat := 4.

Definition Roll : nat := 5.

(** ** Interfaces the tracker consumes *)

(** A response curve ([axis.curve], [axis.curveAlt]): both calls may update
    the curve object. *)
Class CurveOps (Curve : Type) := {
  setTrackingActive : bool -> Curve -> Curve;
  getValue : double -> Curve -> double * Curve
}.

(** Modelled from the spec: the curve capability's [setActive(bool)] records
    whether the curve is the active one; evaluation does not change it. *)
Class CurveActive (Curve : Type) `{CurveOps Curve} := {
  isActive : Curve -> bool;
  isActive_set : forall b c, isActive (setTrackingActive b c) = b;
  isActive_getValue : forall x c, isActive (snd (getValue x c)) = isActive c
}.

(** The [Quat] class: [Quat_new] is its default constructor and [Quat_ypr]
    its three-argument one. *)
Class QuatOps (Quat : Type) := {
  Quat_new : Quat;
  from_euler_rads : double -> double -> double -> Quat;
  Quat_ypr : double -> double -> double -> Quat;
  quat_mul : Quat -> Quat -> Quat;
  quat_inv : Quat -> Quat;
  to_euler_degrees : Quat -> double * double * double
}.

(** [libs.pFilter->filter(input, output)]: the filter reads the input pose,
    fills the six doubles of the output pose and may update itself. *)
Class FilterOps (Filter : Type) := {
  filter : Pose -> Pose -> Filter -> Pose * Filter;
  filter_length : forall i o f, length o = 6 -> length (fst (filter i o f)) = 6
}.

(** [libs.pTracker->data(newpose)]: the raw source writes into the six
    doubles of [newpose]. *)
Class SourceOps (Source : Type) := {
  data : list double -> Source -> list double * Source;
  data_length : forall b s, length (fst (data b s)) = length b
}.

(** [dmat<3,3>] and [dmat<3,1>]: construction from an array, the product
    and element access. *)
Class MatOps (dmat33 dmat31 : Type) := {
  dmat33_of : list double -> dmat33;
  dmat31_of : list double -> dmat31;
  dmat_mul : dmat33 -> dmat31 -> dmat31;
  dmat31_at : dmat31 -> nat -> nat -> double
}.

(** [cos] and [sin] of [<cmath>]. *)
Class Libm := {
  cos : double -> double;
  sin : double -> double
}.

(** The width of [long]; the language guarantees at least 32 bits. *)
Class Platform := {
  long_bits : Z;
  long_bits_min : (32 <= long_bits)%Z
}.

(** ** Configuration *)

Record main_settings := {
  tcomp_p : bool;
  tcomp_tz : bool
}.

Record Opts := {
  invert : bool;
  altp : bool;
  zero : double;
  src : Z
}.

Record Mapping (Curve : Type) := {
  opts : Opts;
  curve : Curve;
  curveAlt : Curve
}.

Arguments opts {Curve} _.
Arguments curve {Curve} _.
Arguments curveAlt {Curve} _.

(** What the worker hands to the outside, in program order. *)
Inductive event :=
  | Protocol_pose (p : Pose)
  | Usleep (usec : Z).

Definition pi : double := 3.141592653%float.

Definition d2r : double := (pi / 180)%float.

Definition sleep_ms : Z := 3.

(** The value of a signed [w]-bit integer expression whose mathematical
    value is [z] (the type [long]: 64 bits on LP64, 32 bits on Windows). *)
Definition wrap_long (w : Z) (z : Z) : Z :=
  ((z + 2 ^ (w - 1)) mod 2 ^ w - 2 ^ (w - 1))%Z.

Definition in_long (w : Z) (z : Z) : Prop :=
  (- 2 ^ (w - 1) <= z < 2 ^ (w - 1))%Z.

Section Model.

Context {Curve Quat Filter Source dmat33 dmat31 : Type}.
Context `{!CurveOps Curve, !QuatOps Quat, !FilterOps Filter}.
Context `{!SourceOps Source, !MatOps dmat33 dmat31, !Libm, !Platform}.

Record Tracker := {
  s : main_settings;
  m : list (Mapping Curve);
  centerp : bool;
  enabledp : bool;
  should_quit : bool;
  pTracker : Source;
  pFilter : option Filter;
  t_b : list double;
  q_b : Quat;
  newpose : list double;
  final_raw : Pose;
  output_pose : Pose;
  raw_6dof : Pose;
  trace : list event
}.

(** [Tracker::map]. *)
Definition map (pos : double) (invertp : bool) (axis : Mapping Curve)
  : double * Mapping Curve :=
  let altp := Bool.eqb (pos <? 0)%float (negb invertp) && altp (opts axis) in
  let c := setTrackingActive (negb altp) (curve axis) in
  let ca := setTrackingActive altp (curveAlt axis) in
  let fc := getValue pos (if altp then ca else c) in
  ((fst fc + zero (opts axis))%float,
   {| opts := opts axis;
      curve := if altp then c else snd fc;
      curveAlt := if altp then snd fc else ca |}).

(** [euler_to_rmat]; [input] points at three doubles. *)
Definition euler_to_rmat (input : list double) : dmat33 :=
  let H := (input !!! 1%nat * pi / 180)%float in
  let P := (input !!! 0%nat * pi / 180)%float in
  let B := (input !!! 2%nat * pi / 180)%float in
  let c1 := cos H in
  let s1 := sin H in
  let c2 := cos P in
  let s2 := sin P in
  let c3 := cos B in
  let s3 := sin B in
  dmat33_of
    [ c2 * c3;  (- c2) * s3;  s2;
      c1 * s3 + c3 * s1 * s2;  c1 * c3 - s1 * s2 * s3;  (- c2) * s1;
      s1 * s3 - c1 * c3 * s2;  c3 * s1 + c1 * s2 * s3;  c1 * c2 ]%float.

Definition p_x : nat := 0.

Definition p_y : nat := 1.

Definition p_z : nat := 2.

(** [Tracker::t_compensate]; the result is the array behind [output] after
    the call.  The caller passes two distinct arrays. *)
Definition t_compensate (rmat : dmat33) (xyz output : list double) (rz : bool)
  : list double :=
  let xyz_ := [ - (xyz !!! p_x); - (xyz !!! p_y); xyz !!! p_z ]%float in
  let tvec := dmat31_of xyz_ in
  let ret := dmat_mul rmat tvec in
  let output := <[0%nat := (- dmat31_at ret p_x 0)%float]> output in
  let output := <[1%nat := (- dmat31_at ret p_y 0)%float]> output in
  if negb rz then <[2%nat := dmat31_at ret p_z 0]> output
  else <[2%nat := xyz !!! 2%nat]> output.

(** ** [Tracker::logic], step by step *)

(** [if (enabledp) for (i...) final_raw(i) = newpose[i];] *)
Definition acquire_raw (st : Tracker) : Pose :=
  if enabledp st then
    foldl (fun (raw : Pose) (i : nat) => <[i := newpose st !!! i]> raw) (final_raw st) (seq 0 6)
  else final_raw st.

(** The filter call, or the copy when [libs.pFilter] is null; the output
    argument is the freshly constructed [filtered_pose]. *)
Definition run_filter (pf : option Filter) (raw : Pose) : Pose * option Filter :=
  match pf with
  | Some f => let r := filter raw Pose_new f in (fst r, Some (snd r))
  | None => (raw, None)
  end.

(** [m(i).opts.invert]; the mappings hold six axes. *)
Definition invert_of (mp : list (Mapping Curve)) (i : nat) : bool :=
  match mp !! i with
  | Some axis => invert (opts axis)
  | None => false
  end.

Definition get_inverts (mp : list (Mapping Curve)) : list bool :=
  [ invert_of mp 0; invert_of mp 1; invert_of mp 2;
    invert_of mp 3; invert_of mp 4; invert_of mp 5 ].

(** [filtered_pose[i] *= inverts[i] ? -1. : 1.] *)
Definition invert_pose (inverts : list bool) (filtered_pose : Pose) : Pose :=
  foldl
    (fun (fp : Pose) (i : nat) =>
       let inv : bool := inverts !!! i in
       <[i := (fp !!! i * (if inv then (-1) else 1))%float]> fp)
    filtered_pose (seq 0 6).

(** [mapped_pose(i) = map(filtered_pose(i), inverts[i], m(i))]; the curves of
    [m(i)] are updated by the call. *)
Definition map_step (inverts : list bool) (filtered_pose : Pose)
  (acc : Pose * list (Mapping Curve)) (i : nat) : Pose * list (Mapping Curve) :=
  match snd acc !! i with
  | Some axis =>
      let r := map (filtered_pose !!! i) (inverts !!! i) axis in
      (<[i := fst r]> (fst acc), <[i := snd r]> (snd acc))
  | None => acc
  end.

Definition map_pose (inverts : list bool) (filtered_pose : Pose)
  (mp : list (Mapping Curve)) : Pose * list (Mapping Curve) :=
  foldl (map_step inverts filtered_pose) (Pose_new, mp) (seq 0 6).

(** The body of [if (centerp)]: the new [t_b] and [q_b]. *)
Definition capture_t_b (filtered_pose : Pose) (tb : list double) : list double :=
  foldl (fun (tb : list double) (i : nat) => <[i := filtered_pose !!! i]> tb)
        tb (seq 0 3).

Definition capture_q_b (mapped_pose : Pose) : Quat :=
  from_euler_rads (mapped_pose !!! Yaw * d2r)%float
                  (mapped_pose !!! Pitch * d2r)%float
                  (mapped_pose !!! Roll * d2r)%float.

(** The block that fills [centered]. *)
Definition center_pose (mapped_pose : Pose) (tb : list double) (qb : Quat) : Pose :=
  let q := Quat_ypr (mapped_pose !!! Yaw * d2r)%float
                    (mapped_pose !!! Pitch * d2r)%float
                    (mapped_pose !!! Roll * d2r)%float in
  let q_ := quat_mul q (quat_inv qb) in
  let e := to_euler_degrees q_ in
  let ypr := [fst (fst e); snd (fst e); snd e] in
  foldl
    (fun (centered : Pose) (i : nat) =>
       <[(i + 3)%nat := ypr !!! i]>
         (<[i := (mapped_pose !!! i - tb !!! i)%float]> centered))
    Pose_new (seq 0 3).

(** [centered_]: the copy of [centered], overwritten by [t_compensate] when
    [s.tcomp_p] is set.  [&centered[Yaw]] is the array from index [Yaw] on. *)
Definition compensate (cfg : main_settings) (centered : Pose) : Pose :=
  let centered_ := centered in
  if tcomp_p cfg then
    t_compensate (euler_to_rmat (drop Yaw centered)) centered centered_
                 (tcomp_tz cfg)
  else centered_.

(** The loop that fills [mapped]. *)
Definition remap_step (mp : list (Mapping Curve)) (centered_ : Pose)
  (mapped : Pose) (i : nat) : Pose :=
  match mp !! i with
  | Some axis =>
      let k := src (opts axis) in
      if (k <? 0)%Z || (k >=? 6)%Z then <[i := 0%float]> mapped
      else <[i := centered_ !!! i]> mapped
  | None => mapped
  end.

Definition remap (mp : list (Mapping Curve)) (centered_ : Pose) : Pose :=
  foldl (remap_step mp centered_) Pose_new (seq 0 6).

(** The values a pass computes on the way, named after the locals of
    [Tracker::logic]. *)
Definition pass_filtered (st : Tracker) : Pose :=
  invert_pose (get_inverts (m st)) (fst (run_filter (pFilter st) (acquire_raw st))).

Definition pass_mapped_pose (st : Tracker) : Pose :=
  fst (map_pose (get_inverts (m st)) (pass_filtered st) (m st)).

Definition pass_t_b (st : Tracker) : list double :=
  if centerp st then capture_t_b (pass_filtered st) (t_b st) else t_b st.

Definition pass_q_b (st : Tracker) : Quat :=
  if centerp st then capture_q_b (pass_mapped_pose st) else q_b st.

Definition pass_centered (st : Tracker) : Pose :=
  center_pose (pass_mapped_pose st) (pass_t_b st) (pass_q_b st).

Definition pass_centered_ (st : Tracker) : Pose :=
  compensate (s st) (pass_centered st).

Definition pass_mapped (st : Tracker) : Pose :=
  remap (snd (map_pose (get_inverts (m st)) (pass_filtered st) (m st)))
        (pass_centered_ st).

(** [Tracker::logic]. *)
Definition logic (st : Tracker) : Tracker :=
  let final_raw' := acquire_raw st in
  let flt := run_filter (pFilter st) final_raw' in
  let inverts := get_inverts (m st) in
  let filtered_pose := invert_pose inverts (fst flt) in
  let mpd := map_pose inverts filtered_pose (m st) in
  let mapped_pose := fst mpd in
  let latch :=
    if centerp st
    then (false, capture_t_b filtered_pose (t_b st), capture_q_b mapped_pose)
    else (centerp st, t_b st, q_b st) in
  let centered := center_pose mapped_pose (snd (fst latch)) (snd latch) in
  let centered_ := compensate (s st) centered in
  let mapped := remap (snd mpd) centered_ in
  {| s := s st;
     m := snd mpd;
     centerp := fst (fst latch);
     enabledp := enabledp st;
     should_quit := should_quit st;
     pTracker := pTracker st;
     pFilter := snd flt;
     t_b := snd (fst latch);
     q_b := snd latch;
     newpose := newpose st;
     final_raw := final_raw';
     output_pose := mapped;
     raw_6dof := final_raw';
     trace := trace st ++ [Protocol_pose mapped] |}.

(** The remap as the specification words it: output axis [i] reads the
    compensated pose at index [src].  Kept beside [remap_step] to compare
    the two. *)
Definition remap_by_src_step (mp : list (Mapping Curve)) (centered_ : Pose)
  (mapped : Pose) (i : nat) : Pose :=
  match mp !! i with
  | Some axis =>
      let k := src (opts axis) in
      if (k <? 0)%Z || (k >=? 6)%Z then <[i := 0%float]> mapped
      else <[i := centered_ !!! Z.to_nat k]> mapped
  | None => mapped
  end.

Definition remap_by_src (mp : list (Mapping Curve)) (centered_ : Pose) : Pose :=
  foldl (remap_by_src_step mp centered_) Pose_new (seq 0 6).

(** ** [Tracker::Tracker] and [Tracker::run] *)

(** The constructor; [newpose] is not initialised by it, so its first
    content [np0] is an argument. *)
Definition Tracker_new (cfg : main_settings) (mp : list (Mapping Curve))
  (source : Source) (flt : option Filter) (np0 : list double) : Tracker :=
  {| s := cfg;
     m := mp;
     centerp := false;
     enabledp := true;
     should_quit := false;
     pTracker := source;
     pFilter := flt;
     t_b := [0; 0; 0]%float;
     q_b := Quat_new;
     newpose := np0;
     final_raw := Pose_new;
     output_pose := Pose_new;
     raw_6dof := Pose_new;
     trace := [] |}.

Definition set_newpose (np : list double) (source : Source) (st : Tracker)
  : Tracker :=
  {| s := s st;
     m := m st;
     centerp := centerp st;
     enabledp := enabledp st;
     should_quit := should_quit st;
     pTracker := source;
     pFilter := pFilter st;
     t_b := t_b st;
     q_b := q_b st;
     newpose := np;
     final_raw := final_raw st;
     output_pose := output_pose st;
     raw_6dof := raw_6dof st;
     trace := trace st |}.

Definition add_event (e : event) (st : Tracker) : Tracker :=
  {| s := s st;
     m := m st;
     centerp := centerp st;
     enabledp := enabledp st;
     should_quit := should_quit st;
     pTracker := pTracker st;
     pFilter := pFilter st;
     t_b := t_b st;
     q_b := q_b st;
     newpose := newpose st;
     final_raw := final_raw st;
     output_pose := output_pose st;
     raw_6dof := raw_6dof st;
     trace := trace st ++ [e] |}.

Definition set_m (mp : list (Mapping Curve)) (st : Tracker) : Tracker :=
  {| s := s st;
     m := mp;
     centerp := centerp st;
     enabledp := enabledp st;
     should_quit := should_quit st;
     pTracker := pTracker st;
     pFilter := pFilter st;
     t_b := t_b st;
     q_b := q_b st;
     newpose := newpose st;
     final_raw := final_raw st;
     output_pose := output_pose st;
     raw_6dof := raw_6dof st;
     trace := trace st |}.

Definition set_should_quit (b : bool) (st : Tracker) : Tracker :=
  {| s := s st;
     m := m st;
     centerp := centerp st;
     enabledp := enabledp st;
     should_quit := b;
     pTracker := pTracker st;
     pFilter := pFilter st;
     t_b := t_b st;
     q_b := q_b st;
     newpose := newpose st;
     final_raw := final_raw st;
     output_pose := output_pose st;
     raw_6dof := raw_6dof st;
     trace := trace st |}.

(** [std::max(1L, q)] with [q = sleep_ms * 1000L - t.elapsed()/1000L], all
    in [long]; [elapsed] is what [t.elapsed()] returned and [/] truncates. *)
Definition usleep_arg (elapsed : Z) : Z :=
  let q :=
    wrap_long long_bits
      (wrap_long long_bits (sleep_ms * 1000)
       - wrap_long long_bits (elapsed ÷ 1000))%Z in
  Z.max 1 q.

(** One turn of [while (!should_quit)]. *)
Definition iteration (elapsed : Z) (st : Tracker) : Tracker :=
  let r := data (newpose st) (pTracker st) in
  let st1 := logic (set_newpose (fst r) (snd r) st) in
  add_event (Usleep (usleep_arg elapsed)) st1.

(** The loop.  [should_quit] is stored by the thread that stops the
    tracker, so the schedule [sched] stands for the environment: one timer
    reading per turn the loop takes before it sees the flag set. *)
Fixpoint run_loop (sched : list Z) (st : Tracker) : Tracker :=
  if should_quit st then st
  else
    match sched with
    | [] => set_should_quit true st
    | elapsed :: sched' => run_loop sched' (iteration elapsed st)
    end.

(** [for (i...) newpose[i] = 0;] *)
Definition zero_newpose (st : Tracker) : Tracker :=
  set_newpose
    (foldl (fun (np : list double) (i : nat) => <[i := 0%float]> np)
           (newpose st) (seq 0 6))
    (pTracker st) st.

Definition deactivate_step (mp : list (Mapping Curve)) (i : nat)
  : list (Mapping Curve) :=
  match mp !! i with
  | Some axis =>
      <[i := {| opts := opts axis;
                curve := setTrackingActive false (curve axis);
                curveAlt := setTrackingActive false (curveAlt axis) |}]> mp
  | None => mp
  end.

(** What [run] does once the loop is left. *)
Definition run_stop (st : Tracker) : Tracker :=
  let st1 := logic (zero_newpose st) in
  let st2 := add_event (Protocol_pose Pose_new) st1 in
  set_m (foldl deactivate_step (m st2) (seq 0 6)) st2.

(** [Tracker::run]. *)
Definition run (sched : list Z) (st : Tracker) : Tracker :=
  run_stop (run_loop sched st).

(** Modelled from the spec: [setEnabled(bool)] of the missing header "gates
    step 1's raw-sample acquisition". *)
Definition setEnabled (b : bool) (st : Tracker) : Tracker :=
  {| s := s st;
     m := m st;
     centerp := centerp st;
     enabledp := b;
     should_quit := should_quit st;
     pTracker := pTracker st;
     pFilter := pFilter st;
     t_b := t_b st;
     q_b := q_b st;
     newpose := newpose st;
     final_raw := final_raw st;
     output_pose := output_pose st;
     raw_6dof := raw_6dof st;
     trace := trace st |}.

(** Modelled from the spec: [requestCenter()] of the missing header "sets
    the one-shot centering flag". *)
Definition requestCenter (st : Tracker) : Tracker :=
  {| s := s st;
     m := m st;
     centerp := true;
     enabledp := enabledp st;
     should_quit := should_quit st;
     pTracker := pTracker st;
     pFilter := pFilter st;
     t_b := t_b st;
     q_b := q_b st;
     newpose := newpose st;
     final_raw := final_raw st;
     output_pose := output_pose st;
     raw_6dof := raw_6dof st;
     trace := trace st |}.

(** [Tracker::get_raw_and_mapped_poses]; the results are the arrays behind
    [mapped] and [raw] after the call.  The caller passes two distinct
    arrays. *)
Definition get_raw_and_mapped_poses (st : Tracker) (mapped raw : list double)
  : list double * list double :=
  foldl
    (fun (acc : list double * list double) (i : nat) =>
       (<[i := output_pose st !!! i]> (fst acc),
        <[i := raw_6dof st !!! i]> (snd acc)))
    (mapped, raw) (seq 0 6).

(** The arguments of the [usleep] calls of a trace, and the poses of its
    protocol calls, in order. *)
Definition sleeps_of (tr : list event) : list Z :=
  omap (fun e => match e with Usleep us => Some us | Protocol_pose _ => None end) tr.

Definition poses_of (tr : list event) : list Pose :=
  omap (fun e => match e with Protocol_pose p => Some p | Usleep _ => None end) tr.

(** The array sizes of the members. *)
Definition wf (st : Tracker) : Prop :=
  length (m st) = 6 /\ length (t_b st) = 3 /\
  length (newpose st) = 6 /\ length (final_raw st) = 6.

End Model.

(** ** A small concrete configuration

    Instances of the interfaces on which the definitions above compute: the
    identity curve that remembers whether it is active, a filter and a source
    that copy six values, 3x3 matrices as row-major arrays, and stand-ins
    for the trigonometry, which primitive floats lack. *)

Module Sample.

Record FlagCurve := {
  fc_active : bool
}.

#[global] Instance FlagCurve_ops : CurveOps FlagCurve := {
  setTrackingActive b c := {| fc_active := b |};
  getValue x c := (x, c)
}.

#[global] Instance FlagCurve_active : CurveActive FlagCurve := {
  isActive := fc_active;
  isActive_set b c := eq_refl;
  isActive_getValue x c := eq_refl
}.

(** Copy six values of [from] into [into]. *)
Definition copy6 (from into : list double) : list double :=
  foldl (fun (o : list double) (i : nat) => <[i := from !!! i]> o) into (seq 0 6).

Record CopyFilter := {
  cf_calls : nat
}.

#[global] Instance CopyFilter_ops : FilterOps CopyFilter.
Proof.
  refine {| filter i o f := (copy6 i o, {| cf_calls := S (cf_calls f) |}) |}.
  intros i o f Ho. unfold copy6. simpl. rewrite !length_insert. exact Ho.
Defined.

(** A source that delivers the samples of a list, one per call. *)
#[global] Instance ListSource_ops : SourceOps (list (list double)).
Proof.
  refine {| data b src :=
              match src with
              | [] => (b, [])
              | smp :: src' => (copy6 smp b, src')
              end |}.
  intros b [|smp src']; [reflexivity|].
  unfold copy6. simpl. rewrite !length_insert. reflexivity.
Defined.

(** Angle triples; composition adds and the inverse negates, which is what
    quaternions do for rotations about one axis. *)
#[global] Instance Angles_ops : QuatOps (double * double * double) := {
  Quat_new := (0, 0, 0)%float;
  from_euler_rads y p r := (y, p, r);
  Quat_ypr y p r := (y, p, r);
  quat_mul a b :=
    (a.1.1 + b.1.1, a.1.2 + b.1.2, a.2 + b.2)%float;
  quat_inv a := (- a.1.1, - a.1.2, - a.2)%float;
  to_euler_degrees a := (a.1.1 / d2r, a.1.2 / d2r, a.2 / d2r)%float
}.

Definition row_times (r : list double) (v : list double) : double :=
  (r !!! 0%nat * v !!! 0%nat + r !!! 1%nat * v !!! 1%nat
   + r !!! 2%nat * v !!! 2%nat)%float.

#[global] Instance Array_mat : MatOps (list double) (list double) := {
  dmat33_of a := a;
  dmat31_of a := a;
  dmat_mul a v :=
    [row_times (take 3 a) v; row_times (take 3 (drop 3 a)) v;
     row_times (drop 6 a) v];
  dmat31_at v r c := v !!! r
}.

(** Exact at angle zero only. *)
#[global] Instance Flat_libm : Libm := {
  cos x := 1%float;
  sin x := 0%float
}.

#[global] Instance LP64 : Platform := {
  long_bits := 64;
  long_bits_min := ltac:(lia)
}.

Definition axis0 (k : Z) : Mapping FlagCurve :=
  {| opts := {| invert := false; altp := false; zero := 0%float; src := k |};
     curve := {| fc_active := false |};
     curveAlt := {| fc_active := false |} |}.

(** Identity remap: [src = i] on every axis. *)
Definition identity_axes : list (Mapping FlagCurve) :=
  [axis0 0; axis0 1; axis0 2; axis0 3; axis0 4; axis0 5].

(** Axis 0 is configured to read axis 1. *)
Definition swapped_axes : list (Mapping FlagCurve) :=
  [axis0 1; axis0 1; axis0 2; axis0 3; axis0 4; axis0 5].

Definition no_comp : main_settings := {| tcomp_p := false; tcomp_tz := false |}.

Definition with_comp : main_settings := {| tcomp_p := true; tcomp_tz := false |}.

Definition sample1 : list double := [1; 2; 3; 0; 0; 0]%float.

Definition start (cfg : main_settings) (mp : list (Mapping FlagCurve))
  (smps : list (list double)) : Tracker :=
  Tracker_new cfg mp smps (None : option CopyFilter) Pose_new.

(** The source has just delivered [sample1]; axis 0 is configured with
    [src = 1]. *)
Definition swapped_state : Tracker :=
  set_newpose sample1 [] (start no_comp swapped_axes []).

(** The same with the identity remap and a pending center request. *)
Definition centering_state : Tracker :=
  requestCenter (set_newpose sample1 [] (start no_comp identity_axes [])).

(** One turn on [sample1], then the tracker is disabled. *)
Definition disabled_state : Tracker :=
  setEnabled false (iteration 0 (start no_comp identity_axes [sample1])).

(** A unit rotation matrix, row-major. *)
Definition unit_rmat : list double := [1; 0; 0; 0; 1; 0; 0; 0; 1]%float.

(** Axis 2 has no source ([src = -1]) and axis 4 one past the end. *)
Definition dropped_axes : list (Mapping FlagCurve) :=
  [axis0 0; axis0 1; axis0 (-1); axis0 3; axis0 6; axis0 5].

Definition dropped_state : Tracker :=
  set_newpose [1; 2; 3; 4; 5; 6]%float [] (start no_comp dropped_axes []).

(** A tracker whose stop was requested before the worker ran. *)
Definition stopped_state : Tracker :=
  set_should_quit true (start no_comp identity_axes [sample1]).

End Sample.

(** * Properties *)

Section Properties.

Context {Curve Quat Filter Source dmat33 dmat31 : Type}.
Context `{!CurveOps Curve, !QuatOps Quat, !FilterOps Filter}.
Context `{!SourceOps Source, !MatOps dmat33 dmat31, !Libm, !Platform}.

Implicit Types (st : @Tracker Curve Quat Filter Source).
Implicit Types (axis : Mapping Curve) (mp : list (Mapping Curve)).

(** ** Arrays of known size *)

Lemma length3_inv {A} (l : list A) :
  length l = 3 -> exists a b c, l = [a; b; c].
Proof.
  destruct l as [|a [|b [|c [|d l]]]]; simpl; try discriminate.
  intros _. by exists a, b, c.
Qed.

Lemma length6_inv {A} (l : list A) :
  length l = 6 -> exists a b c d e f, l = [a; b; c; d; e; f].
Proof.
  destruct l as [|a [|b [|c [|d [|e [|f [|g l]]]]]]]; simpl; try discriminate.
  intros _. by exists a, b, c, d, e, f.
Qed.

Lemma foldl_insert_length {A} (f : list A -> nat -> A) (idx : list nat) :
  forall init : list A,
    length (foldl (fun acc i => <[i := f acc i]> acc) init idx) = length init.
Proof.
  induction idx as [|i idx IH]; intros init; simpl; [done|].
  rewrite IH. apply length_insert.
Qed.

(** ** [Tracker::map] *)

(** The flag [altp] of [map], as a proposition. *)
Lemma use_alternate_iff (pos : double) (invertp : bool) axis :
  Bool.eqb (pos <? 0)%float (negb invertp) && altp (opts axis) = true <->
  (pos <? 0)%float = negb invertp /\ altp (opts axis) = true.
Proof.
  rewrite andb_true_iff. by rewrite Bool.eqb_true_iff.
Qed.

(** C2: [map] takes the alternate curve exactly when
    [(pos < 0) == !invertp] and [opts.altp] hold, evaluates the curve it took
    at [pos] and adds [opts.zero]; without inversion and without the
    alternate curve the result is the primary curve's value plus [zero]. *)
Theorem map_evaluates_selected_curve (pos : double) (invertp : bool) axis :
  (exists useAlternate : bool,
     (useAlternate = true <->
        (pos <? 0)%float = negb invertp /\ altp (opts axis) = true) /\
     fst (map pos invertp axis) =
       (fst (getValue pos
               (setTrackingActive true
                  (if useAlternate then curveAlt axis else curve axis)))
        + zero (opts axis))%float) /\
  (forall (Z0 : double) (i : bool) (k : Z) (c ca : Curve),
     fst (map pos false
            {| opts := {| invert := i; altp := false; zero := Z0; src := k |};
               curve := c; curveAlt := ca |}) =
       (fst (getValue pos (setTrackingActive true c)) + Z0)%float).
Proof.
  split.
  - exists (Bool.eqb (pos <? 0)%float (negb invertp) && altp (opts axis)).
    split; [apply use_alternate_iff|].
    unfold map; simpl.
    by destruct (Bool.eqb _ _ && _).
  - intros Z0 i k c ca. unfold map; simpl.
    by rewrite andb_false_r.
Qed.

(** C6: every call of [map] notifies both curves of the axis, the one it
    evaluates with [true] and the other with [false], whichever way the
    choice falls; so afterwards exactly one of the two is active. *)
Theorem map_notifies_both_curves `{!CurveActive Curve}
  (pos : double) (invertp : bool) axis :
  let useAlternate :=
    Bool.eqb (pos <? 0)%float (negb invertp) && altp (opts axis) in
  let axis' := snd (map pos invertp axis) in
  curve axis' =
    (if useAlternate then setTrackingActive false (curve axis)
     else snd (getValue pos (setTrackingActive true (curve axis)))) /\
  curveAlt axis' =
    (if useAlternate
     then snd (getValue pos (setTrackingActive true (curveAlt axis)))
     else setTrackingActive false (curveAlt axis)) /\
  isActive (curve axis') = negb useAlternate /\
  isActive (curveAlt axis') = useAlternate /\
  xorb (isActive (curve axis')) (isActive (curveAlt axis')) = true.
Proof.
  intros useAlternate axis'. subst axis'. unfold map. fold useAlternate.
  simpl. destruct useAlternate; simpl;
    rewrite ?isActive_getValue, ?isActive_set; done.
Qed.

(** ** [Tracker::t_compensate] *)

(** The array behind [output] after the call. *)
Lemma t_compensate_cells (rmat : dmat33) (xyz output : list double)
  (rz : bool) :
  3 <= length output ->
  let ret :=
    dmat_mul rmat
      (dmat31_of [- (xyz !!! 0%nat); - (xyz !!! 1%nat); xyz !!! 2%nat]%float) in
  t_compensate rmat xyz output rz =
    [ (- dmat31_at ret 0 0)%float;
      (- dmat31_at ret 1 0)%float;
      if rz then xyz !!! 2%nat else dmat31_at ret 2 0 ] ++ drop 3 output.
Proof.
  intros Hlen ret.
  destruct output as [|o0 [|o1 [|o2 output]]]; simpl in Hlen; try lia.
  unfold t_compensate. fold ret. by destruct rz.
Qed.

(** C4: [t_compensate] rotates [(-x, -y, z)] by [rmat], stores the negated
    first two components of the product, and stores as third component the
    product's when [rz] is false and the input's own [z] when [rz] is true;
    nothing beyond the first three cells of [output] is written. *)
Theorem t_compensate_components (rmat : dmat33) (xyz output : list double)
  (rz : bool) :
  3 <= length output ->
  let tvec :=
    dmat31_of [- (xyz !!! 0%nat); - (xyz !!! 1%nat); xyz !!! 2%nat]%float in
  let ret := dmat_mul rmat tvec in
  let out := t_compensate rmat xyz output rz in
  out !!! 0%nat = (- dmat31_at ret 0 0)%float /\
  out !!! 1%nat = (- dmat31_at ret 1 0)%float /\
  out !!! 2%nat = (if rz then xyz !!! 2%nat else dmat31_at ret 2 0) /\
  drop 3 out = drop 3 output /\
  length out = length output.
Proof.
  intros Hlen tvec ret out. subst out.
  rewrite (t_compensate_cells rmat xyz output rz Hlen). fold tvec ret.
  repeat split; try done.
  simpl. rewrite length_drop. lia.
Qed.

(** ** One pass of [Tracker::logic] *)

Lemma logic_final_raw st : final_raw (logic st) = acquire_raw st.
Proof. unfold logic. cbn [final_raw]. reflexivity. Qed.

Lemma logic_raw_6dof st : raw_6dof (logic st) = acquire_raw st.
Proof. unfold logic. cbn [raw_6dof]. reflexivity. Qed.

Lemma logic_newpose st : newpose (logic st) = newpose st.
Proof. unfold logic. cbn [newpose]. reflexivity. Qed.

Lemma logic_m st :
  m (logic st) = snd (map_pose (get_inverts (m st)) (pass_filtered st) (m st)).
Proof. unfold logic, pass_filtered. cbn [m]. reflexivity. Qed.

Lemma logic_t_b st : t_b (logic st) = pass_t_b st.
Proof.
  unfold logic, pass_t_b, pass_filtered. cbn [t_b].
  destruct (centerp st); reflexivity.
Qed.

Lemma logic_q_b st : q_b (logic st) = pass_q_b st.
Proof.
  unfold logic, pass_q_b, pass_mapped_pose, pass_filtered. cbn [q_b].
  destruct (centerp st); reflexivity.
Qed.

Lemma logic_centerp st : centerp (logic st) = false.
Proof.
  unfold logic. cbn [centerp].
  destruct (centerp st); reflexivity.
Qed.

Lemma logic_output_pose st : output_pose (logic st) = pass_mapped st.
Proof.
  unfold logic, pass_mapped, pass_centered_, pass_centered, pass_t_b, pass_q_b,
    pass_mapped_pose, pass_filtered. cbn [output_pose].
  destruct (centerp st); reflexivity.
Qed.

Lemma logic_trace st :
  trace (logic st) = trace st ++ [Protocol_pose (output_pose (logic st))].
Proof. unfold logic. cbn [trace output_pose]. reflexivity. Qed.

Lemma logic_enabledp st : enabledp (logic st) = enabledp st.
Proof. unfold logic. cbn [enabledp]. reflexivity. Qed.

Lemma logic_should_quit st : should_quit (logic st) = should_quit st.
Proof. unfold logic. cbn [should_quit]. reflexivity. Qed.

(** With the tracker disabled, a pass does not look at [newpose]. *)
Lemma disabled_logic_ignores_newpose st (np : list double) (source : Source) :
  enabledp st = false ->
  final_raw (logic (set_newpose np source st)) = final_raw st /\
  raw_6dof (logic (set_newpose np source st)) = final_raw st /\
  output_pose (logic (set_newpose np source st)) = output_pose (logic st).
Proof.
  intros Hen.
  assert (Hraw : acquire_raw (set_newpose np source st) = acquire_raw st).
  { unfold acquire_raw. cbn [enabledp final_raw set_newpose]. by rewrite Hen. }
  assert (Hfin : acquire_raw st = final_raw st).
  { unfold acquire_raw. by rewrite Hen. }
  split; [|split].
  - rewrite logic_final_raw. by rewrite Hraw.
  - rewrite logic_raw_6dof. by rewrite Hraw.
  - rewrite !logic_output_pose.
    unfold pass_mapped, pass_centered_, pass_centered, pass_t_b, pass_q_b,
      pass_mapped_pose, pass_filtered.
    cbn [s m centerp t_b q_b pFilter set_newpose]. rewrite Hraw. reflexivity.
Qed.

(** From here on a pass is used through the lemmas above. *)
Opaque logic.

Lemma acquire_raw_length st : length (acquire_raw st) = length (final_raw st).
Proof.
  unfold acquire_raw. destruct (enabledp st); [|done].
  apply (foldl_insert_length (fun _ i => newpose st !!! i)).
Qed.

Lemma run_filter_length (pf : option Filter) (raw : Pose) :
  length raw = 6 -> length (fst (run_filter pf raw)) = 6.
Proof.
  intros Hraw. destruct pf as [f|]; simpl; [|done].
  by apply filter_length.
Qed.

Lemma map_step_length (inverts : list bool) (fp : Pose)
  (acc : Pose * list (Mapping Curve)) (i : nat) :
  length (snd (map_step inverts fp acc i)) = length (snd acc).
Proof.
  unfold map_step. destruct (snd acc !! i); simpl; [|done].
  apply length_insert.
Qed.

Lemma map_pose_length (inverts : list bool) (fp : Pose) mp :
  length (snd (map_pose inverts fp mp)) = length mp.
Proof.
  unfold map_pose.
  change (length mp) with (length (snd (Pose_new, mp))).
  generalize (Pose_new, mp). generalize (seq 0 6).
  intros idx. induction idx as [|i idx IH]; intros acc; simpl; [done|].
  rewrite IH. apply map_step_length.
Qed.

Lemma capture_t_b_length (fp : Pose) (tb : list double) :
  length (capture_t_b fp tb) = length tb.
Proof. apply (foldl_insert_length (fun _ i => fp !!! i)). Qed.

(** The sizes of the member arrays are invariant under a pass. *)
Lemma wf_logic st : wf st -> wf (logic st).
Proof.
  intros (Hm & Ht & Hn & Hr). unfold wf.
  rewrite logic_m, logic_t_b, logic_newpose, logic_final_raw.
  rewrite map_pose_length, acquire_raw_length. unfold pass_t_b.
  destruct (centerp st); rewrite ?capture_t_b_length; done.
Qed.

(** [centered] as an array. *)
Lemma center_pose_cells (mapped_pose : Pose) (tb : list double) (qb : Quat) :
  let e :=
    to_euler_degrees
      (quat_mul
         (Quat_ypr (mapped_pose !!! Yaw * d2r)%float
                   (mapped_pose !!! Pitch * d2r)%float
                   (mapped_pose !!! Roll * d2r)%float)
         (quat_inv qb)) in
  center_pose mapped_pose tb qb =
    [ (mapped_pose !!! 0%nat - tb !!! 0%nat)%float;
      (mapped_pose !!! 1%nat - tb !!! 1%nat)%float;
      (mapped_pose !!! 2%nat - tb !!! 2%nat)%float;
      fst (fst e); snd (fst e); snd e ].
Proof. reflexivity. Qed.

(** C7: with the tracker disabled a pass leaves [final_raw] as it was; with
    the tracker enabled the six values of [newpose] become [final_raw]. *)
Theorem logic_acquires_raw_when_enabled st :
  wf st ->
  final_raw (logic st) = (if enabledp st then newpose st else final_raw st).
Proof.
  intros (_ & _ & Hn & Hr). rewrite logic_final_raw. unfold acquire_raw.
  destruct (enabledp st); [|done].
  destruct (length6_inv _ Hn) as (n0 & n1 & n2 & n3 & n4 & n5 & ->).
  destruct (length6_inv _ Hr) as (r0 & r1 & r2 & r3 & r4 & r5 & ->).
  reflexivity.
Qed.

(** C8: with [s.tcomp_p] set, the pose handed to the remap is the centered
    pose with its three translation cells replaced by the output of
    [t_compensate] and its three rotation cells kept; with [s.tcomp_p]
    clear it is the centered pose itself. *)
Theorem compensation_touches_translation_only st :
  let centered := pass_centered st in
  let ret :=
    dmat_mul (euler_to_rmat (drop Yaw centered))
      (dmat31_of [- (centered !!! 0%nat); - (centered !!! 1%nat);
                  centered !!! 2%nat]%float) in
  length centered = 6 /\
  pass_centered_ st =
    (if tcomp_p (s st)
     then [ (- dmat31_at ret 0 0)%float;
            (- dmat31_at ret 1 0)%float;
            if tcomp_tz (s st) then centered !!! 2%nat else dmat31_at ret 2 0 ]
          ++ drop 3 centered
     else centered) /\
  output_pose (logic st) = remap (m (logic st)) (pass_centered_ st).
Proof.
  intros centered ret. split; [reflexivity|]. split.
  - unfold pass_centered_, compensate. fold centered.
    destruct (tcomp_p (s st)); [|done].
    apply t_compensate_cells. change (length centered) with 6. lia.
  - by rewrite logic_output_pose.
Qed.

(** ** Centering *)

(** A pass that finds [centerp] clear keeps [t_b] and [q_b]. *)
Lemma logic_keeps_centering st :
  centerp st = false ->
  t_b (logic st) = t_b st /\ q_b (logic st) = q_b st.
Proof.
  intros Hc. rewrite logic_t_b, logic_q_b. unfold pass_t_b, pass_q_b.
  by rewrite Hc.
Qed.

Lemma iteration_centerp (elapsed : Z) st : centerp (iteration elapsed st) = false.
Proof. unfold iteration, add_event. cbn [centerp]. apply logic_centerp. Qed.

Lemma iteration_keeps_centering (elapsed : Z) st :
  centerp st = false ->
  t_b (iteration elapsed st) = t_b st /\ q_b (iteration elapsed st) = q_b st.
Proof.
  intros Hc. unfold iteration, add_event. cbn [t_b q_b].
  set (st0 := set_newpose _ _ st).
  change (t_b st) with (t_b st0). change (q_b st) with (q_b st0).
  by apply logic_keeps_centering.
Qed.

Lemma iterations_keep_centering (sched : list Z) :
  forall st,
    centerp st = false ->
    let st' := foldl (fun st0 elapsed => iteration elapsed st0) st sched in
    centerp st' = false /\ t_b st' = t_b st /\ q_b st' = q_b st.
Proof.
  induction sched as [|e sched IH]; intros st Hc; simpl; [done|].
  destruct (IH (iteration e st) (iteration_centerp e st)) as (H1 & H2 & H3).
  destruct (iteration_keeps_centering e st Hc) as [H4 H5].
  simpl in H1, H2, H3. rewrite H1, H2, H3. done.
Qed.

(** The filtered pose after the inversion loop, cell by cell. *)
Lemma invert_pose_cells (inverts : list bool) (fp : Pose) :
  length fp = 6 ->
  invert_pose inverts fp =
    (fun i : nat =>
       (fp !!! i * (if inverts !!! i : bool then (-1) else 1))%float)
    <$> seq 0 6.
Proof.
  intros Hfp.
  destruct (length6_inv _ Hfp) as (f0 & f1 & f2 & f3 & f4 & f5 & ->).
  reflexivity.
Qed.

(** C3: a pass that finds [centerp] set clears it and latches [t_b] to
    cells 0..2 of the filtered pose after the inversion and before the
    curves, and [q_b] to the quaternion of the mapped yaw, pitch and roll
    times [d2r]; a pass that finds it clear keeps both, and so does every
    later pass, whatever the source delivers. *)
Theorem centering_is_one_shot_latch (sched : list Z) st :
  wf st ->
  let flt := fst (run_filter (pFilter st) (acquire_raw st)) in
  let sg := fun i : nat =>
    if invert_of (m st) i then (-1)%float else 1%float in
  let mapped_pose := pass_mapped_pose st in
  let st1 := logic st in
  let st2 := foldl (fun st0 elapsed => iteration elapsed st0) st1 sched in
  centerp st1 = false /\
  t_b st1 =
    (if centerp st
     then [ flt !!! 0%nat * sg 0%nat; flt !!! 1%nat * sg 1%nat;
            flt !!! 2%nat * sg 2%nat ]%float
     else t_b st) /\
  q_b st1 =
    (if centerp st
     then from_euler_rads (mapped_pose !!! Yaw * d2r)%float
                          (mapped_pose !!! Pitch * d2r)%float
                          (mapped_pose !!! Roll * d2r)%float
     else q_b st) /\
  t_b (logic st1) = t_b st1 /\ q_b (logic st1) = q_b st1 /\
  centerp st2 = false /\ t_b st2 = t_b st1 /\ q_b st2 = q_b st1.
Proof.
  intros Hwf flt sg mapped_pose st1 st2.
  pose proof (logic_centerp st) as Hc1. fold st1 in Hc1.
  split; [exact Hc1|]. split; [|split].
  - subst st1. rewrite logic_t_b. unfold pass_t_b.
    destruct (centerp st); [|done].
    destruct Hwf as (_ & Ht & _ & Hr).
    destruct (length3_inv _ Ht) as (a & b & c & ->).
    unfold pass_filtered. fold flt.
    rewrite invert_pose_cells.
    + reflexivity.
    + apply run_filter_length. by rewrite acquire_raw_length.
  - subst st1. rewrite logic_q_b. unfold pass_q_b.
    by destruct (centerp st).
  - destruct (logic_keeps_centering st1 Hc1) as [-> ->].
    destruct (iterations_keep_centering sched st1 Hc1) as (H1 & H2 & H3).
    done.
Qed.

(** ** Axis remap *)

(** What the remap loop stores at output axis [i]. *)
Lemma remap_axis mp (centered_ : Pose) (i : nat) axis :
  length mp = 6 ->
  mp !! i = Some axis ->
  remap mp centered_ !!! i =
    (if (src (opts axis) <? 0)%Z || (src (opts axis) >=? 6)%Z
     then 0%float else centered_ !!! i).
Proof.
  intros Hmp Hi.
  destruct (length6_inv _ Hmp) as (a0 & a1 & a2 & a3 & a4 & a5 & ->).
  unfold remap, remap_step.
  destruct i as [|[|[|[|[|[|i]]]]]]; simpl in Hi; try done;
    injection Hi as ->; simpl;
    repeat match goal with
           | |- context [if ?b then _ else _] => destruct b; simpl
           end; reflexivity.
Qed.

(** An axis whose [src] is out of range is sent as zero. *)
Lemma remap_out_of_range mp (centered_ : Pose) (i : nat) axis :
  length mp = 6 ->
  mp !! i = Some axis ->
  (src (opts axis) < 0 \/ 6 <= src (opts axis))%Z ->
  remap mp centered_ !!! i = 0%float.
Proof.
  intros Hmp Hi Hk. rewrite (remap_axis mp centered_ i axis Hmp Hi).
  destruct (Z.ltb_spec (src (opts axis)) 0); [done|].
  destruct (Z.geb_spec (src (opts axis)) 6); [done|lia].
Qed.

(** ** The worker loop *)

Lemma iteration_should_quit (elapsed : Z) st :
  should_quit (iteration elapsed st) = should_quit st.
Proof.
  unfold iteration, add_event. cbn [should_quit].
  rewrite logic_should_quit. reflexivity.
Qed.

Lemma iteration_enabledp (elapsed : Z) st :
  enabledp (iteration elapsed st) = enabledp st.
Proof.
  unfold iteration, add_event. cbn [enabledp].
  rewrite logic_enabledp. reflexivity.
Qed.

Lemma iteration_trace (elapsed : Z) st :
  trace (iteration elapsed st) =
    trace st ++ [ Protocol_pose (output_pose (iteration elapsed st));
                  Usleep (usleep_arg elapsed) ].
Proof.
  unfold iteration, add_event. cbn [trace output_pose].
  rewrite logic_trace. cbn [trace set_newpose].
  rewrite <- app_assoc. reflexivity.
Qed.

Lemma wf_iteration (elapsed : Z) st : wf st -> wf (iteration elapsed st).
Proof.
  intros (Hm & Ht & Hn & Hr). unfold iteration.
  set (st0 := set_newpose _ _ st).
  assert (Hwf0 : wf st0).
  { repeat split; try done. subst st0; cbn [newpose set_newpose].
    by rewrite data_length. }
  destruct (wf_logic st0 Hwf0) as (Hm' & Ht' & Hn' & Hr').
  unfold wf, add_event. cbn [m t_b newpose final_raw]. auto.
Qed.

Lemma wf_run_loop (sched : list Z) : forall st, wf st -> wf (run_loop sched st).
Proof.
  induction sched as [|e sched IH]; intros st Hwf; simpl.
  - by destruct (should_quit st).
  - destruct (should_quit st); [done|]. apply IH. by apply wf_iteration.
Qed.

(** The loop is left only with the flag seen set. *)
Lemma run_loop_should_quit (sched : list Z) :
  forall st, should_quit (run_loop sched st) = true.
Proof.
  induction sched as [|e sched IH]; intros st; simpl.
  - by destruct (should_quit st) eqn:E.
  - destruct (should_quit st) eqn:E; [done|]. apply IH.
Qed.

Lemma zero_newpose_cells st :
  length (newpose st) = 6 ->
  newpose (zero_newpose st) = [0; 0; 0; 0; 0; 0]%float.
Proof.
  intros Hn.
  destruct (length6_inv _ Hn) as (n0 & n1 & n2 & n3 & n4 & n5 & E).
  unfold zero_newpose. cbn [newpose set_newpose]. by rewrite E.
Qed.

(** What [run] adds to the trace once the loop is left. *)
Lemma run_stop_trace st :
  trace (run_stop st) =
    trace st ++ [ Protocol_pose (output_pose (logic (zero_newpose st)));
                  Protocol_pose Pose_new ].
Proof.
  unfold run_stop, set_m, add_event. cbn [trace].
  rewrite logic_trace. cbn [trace zero_newpose set_newpose].
  rewrite <- app_assoc. reflexivity.
Qed.

(** C5: once the loop is left, [run] zeroes the six cells of [newpose],
    runs one pass of [logic], and then hands the protocol a fresh, all-zero
    pose; these are the last two protocol calls of the run, so a stop is
    always followed by a call with the zero pose. *)
Theorem run_shutdown_sequence (sched : list Z) st :
  wf st ->
  let st_q := run_loop sched st in
  let last_pass := logic (zero_newpose st_q) in
  should_quit st_q = true /\
  newpose (zero_newpose st_q) = [0; 0; 0; 0; 0; 0]%float /\
  trace (run sched st) =
    trace st_q ++ [ Protocol_pose (output_pose last_pass);
                    Protocol_pose [0; 0; 0; 0; 0; 0]%float ] /\
  last (trace (run sched st)) = Some (Protocol_pose [0; 0; 0; 0; 0; 0]%float).
Proof.
  intros Hwf st_q last_pass.
  assert (Htr : trace (run sched st) =
                trace st_q ++ [ Protocol_pose (output_pose last_pass);
                                Protocol_pose [0; 0; 0; 0; 0; 0]%float ])
    by apply run_stop_trace.
  split; [apply run_loop_should_quit|]. split; [|split].
  - apply zero_newpose_cells.
    by destruct (wf_run_loop sched st Hwf) as (_ & _ & Hn & _).
  - exact Htr.
  - rewrite Htr.
    change [Protocol_pose (output_pose last_pass);
            Protocol_pose [0; 0; 0; 0; 0; 0]%float]
      with ([Protocol_pose (output_pose last_pass)] ++
            [Protocol_pose [0; 0; 0; 0; 0; 0]%float]).
    rewrite app_assoc. apply last_snoc.
Qed.

(** A signed [w]-bit expression whose value fits is not changed. *)
Lemma wrap_long_small (w z : Z) :
  (0 < w)%Z -> in_long w z -> wrap_long w z = z.
Proof.
  unfold in_long, wrap_long. intros Hw Hz.
  assert (Hp : (2 ^ w = 2 * 2 ^ (w - 1))%Z).
  { replace w with (Z.succ (w - 1)) at 1 by lia. apply Z.pow_succ_r. lia. }
  rewrite Z.mod_small; lia.
Qed.

(** [q] does not overflow: the argument of [usleep] is the maximum of 1
    and the period less the elapsed microseconds. *)
Lemma usleep_arg_exact (elapsed : Z) :
  in_long long_bits elapsed ->
  usleep_arg elapsed = Z.max 1 (sleep_ms * 1000 - elapsed ÷ 1000)%Z.
Proof.
  intros He. unfold usleep_arg.
  pose proof long_bits_min as Hw.
  assert (Hp : (2 ^ 31 <= 2 ^ (long_bits - 1))%Z)
    by (apply Z.pow_le_mono_r; lia).
  change (2 ^ 31)%Z with 2147483648%Z in Hp.
  unfold in_long in He.
  assert (Hq : (elapsed = 1000 * (elapsed ÷ 1000) + Z.rem elapsed 1000)%Z)
    by (apply Z.quot_rem'; lia).
  assert (Hr : (-1000 < Z.rem elapsed 1000 < 1000)%Z).
  { assert (Hnz : (1000 <> 0)%Z) by discriminate.
    pose proof (Z.rem_bound_abs elapsed 1000 Hnz) as Hb.
    change (Z.abs 1000) with 1000%Z in Hb. lia. }
  unfold sleep_ms.
  rewrite (wrap_long_small long_bits (3 * 1000)) by (unfold in_long; lia).
  rewrite (wrap_long_small long_bits (elapsed ÷ 1000))
    by (unfold in_long; lia).
  rewrite wrap_long_small by (unfold in_long; lia).
  reflexivity.
Qed.

(** With a timer that does not run backwards the argument also fits the
    32-bit unsigned parameter of [usleep]. *)
Lemma usleep_arg_range (elapsed : Z) :
  in_long long_bits elapsed ->
  (0 <= elapsed)%Z ->
  (1 <= usleep_arg elapsed <= sleep_ms * 1000)%Z.
Proof.
  intros He Hpos. rewrite (usleep_arg_exact elapsed He). unfold sleep_ms.
  pose proof (Z.quot_pos elapsed 1000 Hpos ltac:(lia)). lia.
Qed.

(** C9: every turn of the loop runs one pass, which hands a pose to the
    protocol, and then calls [usleep] with the maximum of 1 and
    [sleep_ms * 1000] less the elapsed microseconds; that argument is never
    below 1. *)
Theorem worker_loop_sleeps_at_least_1us (sched : list Z) :
  forall st,
    should_quit st = false ->
    Forall (in_long long_bits) sched ->
    let pause := fun e : Z => Z.max 1 (sleep_ms * 1000 - e ÷ 1000)%Z in
    exists poses : list Pose,
      length poses = length sched /\
      trace (run_loop sched st) =
        trace st ++
        concat (zip_with (fun p e => [Protocol_pose p; Usleep (pause e)])
                         poses sched) /\
      Forall (fun e => (1 <= pause e)%Z) sched.
Proof.
  induction sched as [|e sched IH]; intros st Hq Hin pause.
  - exists []. cbn [run_loop zip_with concat length]. rewrite Hq.
    cbn [trace set_should_quit]. by rewrite app_nil_r.
  - apply Forall_cons in Hin as [He Hin].
    destruct (IH (iteration e st)
                (eq_trans (iteration_should_quit e st) Hq) Hin)
      as (poses & Hlen & Htr & Hall).
    exists (output_pose (iteration e st) :: poses).
    split; [simpl; by rewrite Hlen|]. split.
    + cbn [run_loop zip_with concat length]. rewrite Hq.
      rewrite Htr, iteration_trace.
      rewrite (usleep_arg_exact e He). fold (pause e).
      rewrite <- app_assoc. reflexivity.
    + apply Forall_cons. split; [|exact Hall]. subst pause. simpl. lia.
Qed.

(** C10: when the loop is left with the tracker disabled, the zeroed
    [newpose] never reaches [final_raw]: the last pass works on the raw pose
    acquired before and sends what a pass without the zeroing would send;
    the zero pose reaches the protocol through the direct call only. *)
Theorem disabled_shutdown_pass_keeps_raw_pose (sched : list Z) st :
  let st_q := run_loop sched st in
  enabledp st_q = false ->
  acquire_raw (zero_newpose st_q) = final_raw st_q /\
  final_raw (run sched st) = final_raw st_q /\
  raw_6dof (run sched st) = final_raw st_q /\
  trace (run sched st) =
    trace st_q ++ [ Protocol_pose (output_pose (logic st_q));
                    Protocol_pose [0; 0; 0; 0; 0; 0]%float ].
Proof.
  intros st_q Hen.
  destruct (disabled_logic_ignores_newpose st_q
              (newpose (zero_newpose st_q)) (pTracker st_q) Hen)
    as (H1 & H2 & H3).
  assert (Hz : zero_newpose st_q =
               set_newpose (newpose (zero_newpose st_q)) (pTracker st_q) st_q)
    by reflexivity.
  assert (Hrun : forall f : Tracker -> Pose,
             (forall st0 mp e, f (set_m mp (add_event e st0)) = f st0) ->
             f (run sched st) = f (logic (zero_newpose st_q))).
  { intros f Hf. unfold run, run_stop. fold st_q. apply Hf. }
  split; [|split; [|split]].
  - unfold acquire_raw. cbn [enabledp final_raw zero_newpose set_newpose].
    by rewrite Hen.
  - rewrite (Hrun final_raw) by reflexivity. rewrite Hz. exact H1.
  - rewrite (Hrun raw_6dof) by reflexivity. rewrite Hz. exact H2.
  - unfold run. fold st_q. rewrite run_stop_trace.
    rewrite Hz at 1. rewrite H3. reflexivity.
Qed.

End Properties.

Transparent logic.

(** * The properties on the sample configuration *)

Section OnSample.

Import Sample.

Local Open Scope float_scope.

(** Two turns of the loop, the second longer than the period, then the
    stop: each turn sends a pose and sleeps, the stop sends two poses. *)
Example run_sample_trace :
  trace (run [0%Z; 5000000%Z] (start no_comp identity_axes [sample1])) =
    [ Protocol_pose [1; 2; 3; 0; 0; 0]; Usleep 3000;
      Protocol_pose [1; 2; 3; 0; 0; 0]; Usleep 1;
      Protocol_pose [0; 0; 0; 0; 0; 0];
      Protocol_pose [0; 0; 0; 0; 0; 0] ].
Proof. vm_compute. reflexivity. Qed.

(** A negative input on an axis with the alternate curve enabled: the
    alternate curve is evaluated and ends up the active one. *)
Example map_sample_alternate :
  map (-2) false
      {| opts := {| invert := false; altp := true; zero := 0.5; src := 0 |};
         curve := {| fc_active := true |};
         curveAlt := {| fc_active := false |} |} =
    (-1.5,
     {| opts := {| invert := false; altp := true; zero := 0.5; src := 0 |};
        curve := {| fc_active := false |};
        curveAlt := {| fc_active := true |} |}).
Proof. vm_compute. reflexivity. Qed.

(** C1: on the sample whose axis 0 has [src = 1], the compensated pose is
    [1; 2; 3; 0; 0; 0] and the pass sends 1 on axis 0, the value at index 0,
    where reading index [src] gives 2: the remap loop checks [src] against
    the range and then indexes with the loop counter. *)
Theorem remap_reads_loop_index_not_src :
  (fun axis => src (opts axis)) <$> m swapped_state = [1; 1; 2; 3; 4; 5]%Z /\
  pass_centered_ swapped_state = [1; 2; 3; 0; 0; 0] /\
  output_pose (logic swapped_state) = [1; 2; 3; 0; 0; 0] /\
  last (trace (logic swapped_state)) = Some (Protocol_pose [1; 2; 3; 0; 0; 0]) /\
  remap_by_src (m (logic swapped_state)) (pass_centered_ swapped_state) =
    [2; 2; 3; 0; 0; 0] /\
  output_pose (logic swapped_state) !!! 0%nat
    <> pass_centered_ swapped_state !!! 1%nat.
Proof.
  repeat split; try (vm_compute; reflexivity).
  vm_compute. intros E. apply (f_equal (fun x => PrimFloat.ltb x 2)) in E.
  vm_compute in E. discriminate E.
Qed.

Lemma t_compensate_components_witness :
  3 <= length [9; 9; 9; 4; 5; 6] /\
  t_compensate unit_rmat [1; 2; 3] [9; 9; 9; 4; 5; 6] true !!! 0%nat = 1 /\
  t_compensate unit_rmat [1; 2; 3] [9; 9; 9; 4; 5; 6] true !!! 1%nat = 2 /\
  t_compensate unit_rmat [1; 2; 3] [9; 9; 9; 4; 5; 6] true !!! 2%nat = 3 /\
  drop 3 (t_compensate unit_rmat [1; 2; 3] [9; 9; 9; 4; 5; 6] true) = [4; 5; 6] /\
  length (t_compensate unit_rmat [1; 2; 3] [9; 9; 9; 4; 5; 6] true) = 6%nat.
Proof.
  assert (H : 3 <= length [9; 9; 9; 4; 5; 6]) by (simpl; lia).
  exact (conj H
           (t_compensate_components (dmat31 := list float) unit_rmat
              [1; 2; 3] [9; 9; 9; 4; 5; 6] true H)).
Defined.

Lemma wf_centering_state : wf centering_state.
Proof. repeat split. Qed.

Lemma wf_swapped_state : wf swapped_state.
Proof. repeat split. Qed.

Lemma logic_acquires_raw_when_enabled_witness :
  wf swapped_state /\
  final_raw (logic swapped_state) = [1; 2; 3; 0; 0; 0].
Proof.
  exact (conj wf_swapped_state
           (logic_acquires_raw_when_enabled swapped_state wf_swapped_state)).
Defined.

Lemma centering_is_one_shot_latch_witness :
  wf centering_state /\
  centerp centering_state = true /\
  centerp (logic centering_state) = false /\
  t_b (logic centering_state) = [1; 2; 3] /\
  t_b (logic (logic centering_state)) = [1; 2; 3] /\
  t_b (iteration 7 (logic centering_state)) = [1; 2; 3].
Proof.
  destruct (centering_is_one_shot_latch [7%Z] centering_state
              wf_centering_state)
    as (H1 & H2 & _ & H3 & _ & _ & H4 & _).
  split; [exact wf_centering_state|]. split; [reflexivity|].
  split; [exact H1|]. split; [exact H2|].
  split; [exact (eq_trans H3 H2)|exact (eq_trans H4 H2)].
Defined.

Lemma run_shutdown_sequence_witness :
  wf (start with_comp identity_axes [sample1]) /\
  trace (run [0%Z] (start with_comp identity_axes [sample1])) =
    trace (run_loop [0%Z] (start with_comp identity_axes [sample1])) ++
    [ Protocol_pose [-0; 0; 0; 0; 0; 0]; Protocol_pose [0; 0; 0; 0; 0; 0] ].
Proof.
  assert (H : wf (start with_comp identity_axes [sample1]))
    by (repeat split).
  destruct (run_shutdown_sequence [0%Z]
              (start with_comp identity_axes [sample1]) H)
    as (_ & _ & Htr & _).
  exact (conj H Htr).
Defined.

Lemma worker_loop_sleeps_at_least_1us_witness :
  should_quit (start no_comp identity_axes [sample1]) = false /\
  Forall (in_long long_bits) [0%Z; 5000000%Z] /\
  exists poses : list (list float),
    length poses = 2%nat /\
    trace (run_loop [0%Z; 5000000%Z] (start no_comp identity_axes [sample1])) =
      concat (zip_with (fun p e =>
                          [Protocol_pose p;
                           Usleep (Z.max 1 (sleep_ms * 1000 - e ÷ 1000))])
                       poses [0%Z; 5000000%Z]).
Proof.
  assert (Hin : Forall (in_long long_bits) [0%Z; 5000000%Z]).
  { repeat constructor; unfold in_long; simpl; lia. }
  destruct (worker_loop_sleeps_at_least_1us [0%Z; 5000000%Z]
              (start no_comp identity_axes [sample1]) eq_refl Hin)
    as (poses & Hlen & Htr & _).
  split; [reflexivity|]. split; [exact Hin|].
  exists poses. split; [exact Hlen|exact Htr].
Defined.

Lemma disabled_shutdown_pass_keeps_raw_pose_witness :
  enabledp (run_loop [] disabled_state) = false /\
  final_raw (run [] disabled_state) = [1; 2; 3; 0; 0; 0] /\
  trace (run [] disabled_state) =
    trace disabled_state ++
    [ Protocol_pose [1; 2; 3; 0; 0; 0]; Protocol_pose [0; 0; 0; 0; 0; 0] ].
Proof.
  destruct (disabled_shutdown_pass_keeps_raw_pose [] disabled_state eq_refl)
    as (_ & Hraw & _ & Htr).
  split; [reflexivity|]. split; [exact Hraw|exact Htr].
Defined.

End OnSample.

(** * Further properties of the pass and of the run *)

Section Pipeline.

Context {Curve Quat Filter Source dmat33 dmat31 : Type}.
Context `{!CurveOps Curve, !QuatOps Quat, !FilterOps Filter}.
Context `{!SourceOps Source, !MatOps dmat33 dmat31, !Libm, !Platform}.

Implicit Types (st : @Tracker Curve Quat Filter Source).
Implicit Types (axis : Mapping Curve) (mp : list (Mapping Curve)).

Opaque logic.

(** ** The mappings through a pass *)

Lemma map_opts (pos : double) (invertp : bool) axis :
  opts (snd (map pos invertp axis)) = opts axis.
Proof. reflexivity. Qed.

Lemma map_step_opts (inverts : list bool) (fp : Pose)
  (acc : Pose * list (Mapping Curve)) (i : nat) :
  opts <$> snd (map_step inverts fp acc i) = opts <$> snd acc.
Proof.
  unfold map_step. destruct (snd acc !! i) as [axis|] eqn:E; [|done].
  cbn [snd]. rewrite list_fmap_insert, map_opts.
  apply list_insert_id. by rewrite list_lookup_fmap, E.
Qed.

Lemma map_pose_opts (inverts : list bool) (fp : Pose) mp :
  opts <$> snd (map_pose inverts fp mp) = opts <$> mp.
Proof.
  unfold map_pose.
  change (opts <$> mp) with (opts <$> snd (Pose_new, mp)).
  generalize (Pose_new, mp). generalize (seq 0 6).
  intros idx. induction idx as [|i idx IH]; intros acc; simpl; [done|].
  rewrite IH. apply map_step_opts.
Qed.

Lemma deactivate_opts (idx : list nat) :
  forall mp, opts <$> foldl deactivate_step mp idx = opts <$> mp.
Proof.
  induction idx as [|i idx IH]; intros mp; simpl; [done|].
  rewrite IH. unfold deactivate_step.
  destruct (mp !! i) as [axis|] eqn:E; [|done].
  rewrite list_fmap_insert. cbn [opts].
  apply list_insert_id. by rewrite list_lookup_fmap, E.
Qed.

Lemma deactivate_length (idx : list nat) :
  forall mp, length (foldl deactivate_step mp idx) = length mp.
Proof.
  induction idx as [|i idx IH]; intros mp; simpl; [done|].
  rewrite IH. unfold deactivate_step.
  destruct (mp !! i); [apply length_insert|done].
Qed.

Lemma logic_s st : s (logic st) = s st.
Proof. Transparent logic. unfold logic. cbn [s]. reflexivity. Opaque logic. Qed.

Lemma logic_pTracker st : pTracker (logic st) = pTracker st.
Proof.
  Transparent logic. unfold logic. cbn [pTracker]. reflexivity. Opaque logic.
Qed.

Lemma logic_opts st : opts <$> m (logic st) = opts <$> m st.
Proof. rewrite logic_m. apply map_pose_opts. Qed.

Lemma logic_m_length st : length (m (logic st)) = length (m st).
Proof. rewrite logic_m. apply map_pose_length. Qed.

(** The configuration of an axis is still at its index after a pass. *)
Lemma logic_axis_opts st (i : nat) axis :
  m st !! i = Some axis ->
  exists axis', m (logic st) !! i = Some axis' /\ opts axis' = opts axis.
Proof.
  intros Hi.
  assert (Ho : (opts <$> m (logic st)) !! i = Some (opts axis))
    by (rewrite logic_opts, list_lookup_fmap, Hi; reflexivity).
  rewrite list_lookup_fmap in Ho.
  destruct (m (logic st) !! i) as [axis'|]; [|discriminate Ho].
  exists axis'. split; [reflexivity|]. by injection Ho.
Qed.

Lemma iteration_opts (elapsed : Z) st :
  s (iteration elapsed st) = s st /\
  opts <$> m (iteration elapsed st) = opts <$> m st /\
  length (m (iteration elapsed st)) = length (m st).
Proof.
  unfold iteration, add_event. cbn [s m].
  rewrite logic_s, logic_opts, logic_m_length. done.
Qed.

Lemma run_loop_opts (sched : list Z) :
  forall st,
    s (run_loop sched st) = s st /\
    opts <$> m (run_loop sched st) = opts <$> m st /\
    length (m (run_loop sched st)) = length (m st) /\
    enabledp (run_loop sched st) = enabledp st.
Proof.
  induction sched as [|e sched IH]; intros st; cbn [run_loop].
  - by destruct (should_quit st).
  - destruct (should_quit st); [done|].
    destruct (IH (iteration e st)) as (H1 & H2 & H3 & H4).
    destruct (iteration_opts e st) as (H5 & H6 & H7).
    rewrite H1, H2, H3, H4, H5, H6, H7, iteration_enabledp. done.
Qed.

(** X3: neither the loop nor the shutdown changes the settings, the options
    of any axis, the number of axes or the enabled flag. *)
Theorem run_keeps_configuration (sched : list Z) st :
  s (run sched st) = s st /\
  opts <$> m (run sched st) = opts <$> m st /\
  length (m (run sched st)) = length (m st) /\
  enabledp (run sched st) = enabledp st.
Proof.
  destruct (run_loop_opts sched st) as (H1 & H2 & H3 & H4).
  unfold run, run_stop.
  set (st0 := zero_newpose (run_loop sched st)).
  pose proof (logic_s st0) as Ls. pose proof (logic_opts st0) as Lo.
  pose proof (logic_m_length st0) as Ll.
  pose proof (logic_enabledp st0) as Le.
  set (X := logic st0) in *. clearbody X.
  unfold set_m, add_event. cbn [s m enabledp].
  rewrite deactivate_opts, deactivate_length, Ls, Lo, Ll, Le.
  subst st0. unfold zero_newpose. cbn [s m enabledp set_newpose]. auto.
Qed.

(** ** The remap within a pass *)

Lemma compensate_length (cfg : main_settings) (centered : Pose) :
  length centered = 6 -> length (compensate cfg centered) = 6.
Proof.
  intros Hc. unfold compensate. destruct (tcomp_p cfg); [|done].
  rewrite t_compensate_cells by lia. simpl. rewrite length_drop. lia.
Qed.

Lemma pass_centered__length st : length (pass_centered_ st) = 6.
Proof. unfold pass_centered_. by apply compensate_length. Qed.

(** X1: an axis whose [src] lies outside [0,6) is sent as exactly zero,
    whatever the source, the filter and the curves deliver. *)
Theorem out_of_range_src_sends_zero st (i : nat) axis :
  length (m st) = 6 ->
  m st !! i = Some axis ->
  (src (opts axis) < 0 \/ 6 <= src (opts axis))%Z ->
  output_pose (logic st) !!! i = 0%float /\
  exists p : Pose,
    last (trace (logic st)) = Some (Protocol_pose p) /\ p !!! i = 0%float.
Proof.
  intros Hlen Hi Hk.
  destruct (logic_axis_opts st i axis Hi) as (axis' & Hi' & Ho).
  assert (Hz : output_pose (logic st) !!! i = 0%float).
  { rewrite logic_output_pose. unfold pass_mapped.
    rewrite logic_m in Hi'.
    apply (remap_out_of_range _ _ i axis').
    - by rewrite map_pose_length.
    - exact Hi'.
    - by rewrite Ho. }
  split; [exact Hz|].
  exists (output_pose (logic st)). split; [|exact Hz].
  rewrite logic_trace. apply last_snoc.
Qed.

Lemma remap_steps_length mp (centered_ : Pose) (idx : list nat) :
  forall p : Pose,
    length (foldl (remap_step mp centered_) p idx) = length p.
Proof.
  induction idx as [|i idx IH]; intros p; simpl; [done|].
  rewrite IH. unfold remap_step.
  destruct (mp !! i); [|done].
  destruct (_ || _); apply length_insert.
Qed.

Lemma remap_length mp (centered_ : Pose) : length (remap mp centered_) = 6.
Proof. unfold remap. by rewrite remap_steps_length. Qed.

Lemma length6_cells (l : Pose) :
  length l = 6 ->
  l = [ l !!! 0%nat; l !!! 1%nat; l !!! 2%nat;
        l !!! 3%nat; l !!! 4%nat; l !!! 5%nat ].
Proof.
  intros Hl. destruct (length6_inv _ Hl) as (a & b & c & d & e & f & ->).
  reflexivity.
Qed.

(** X2: with the identity remap ([src = i] on each of the six axes) the
    pose sent to the protocol and published is the compensated pose. *)
Theorem identity_remap_sends_compensated_pose st :
  length (m st) = 6 ->
  (forall (i : nat) axis, m st !! i = Some axis -> src (opts axis) = Z.of_nat i) ->
  output_pose (logic st) = pass_centered_ st /\
  last (trace (logic st)) = Some (Protocol_pose (pass_centered_ st)).
Proof.
  intros Hlen Hid.
  assert (Hcell : forall i : nat,
             i < 6 -> output_pose (logic st) !!! i = pass_centered_ st !!! i).
  { intros i Hi.
    destruct (lookup_lt_is_Some_2 (m st) i) as [axis Hax]; [lia|].
    destruct (logic_axis_opts st i axis Hax) as (axis' & Hi' & Ho).
    rewrite logic_output_pose. unfold pass_mapped.
    rewrite logic_m in Hi'.
    rewrite (remap_axis _ _ i axis'); [|by rewrite map_pose_length|exact Hi'].
    rewrite Ho, (Hid i axis Hax).
    destruct (Z.ltb_spec (Z.of_nat i) 0); [lia|].
    destruct (Z.geb_spec (Z.of_nat i) 6); [lia|done]. }
  assert (Hout : output_pose (logic st) = pass_centered_ st).
  { rewrite (length6_cells (output_pose (logic st)))
      by (rewrite logic_output_pose; apply remap_length).
    rewrite !Hcell by lia.
    symmetry. apply length6_cells, pass_centered__length. }
  split; [exact Hout|]. rewrite logic_trace, Hout. apply last_snoc.
Qed.

(** ** The curves through a pass and at the end of the run *)

Lemma map_one_active `{!CurveActive Curve} (pos : double) (invertp : bool) axis :
  xorb (isActive (curve (snd (map pos invertp axis))))
       (isActive (curveAlt (snd (map pos invertp axis)))) = true.
Proof.
  unfold map. cbn [snd curve curveAlt].
  destruct (Bool.eqb _ _ && _);
    rewrite ?isActive_getValue, ?isActive_set; reflexivity.
Qed.

(** The mappings after the curve loop, axis by axis. *)
Lemma map_pose_axes (inverts : list bool) (fp : Pose) mp :
  length mp = 6 ->
  snd (map_pose inverts fp mp) =
    imap (fun i axis => snd (map (fp !!! i) (inverts !!! i) axis)) mp.
Proof.
  intros Hmp.
  destruct (length6_inv _ Hmp) as (a0 & a1 & a2 & a3 & a4 & a5 & ->).
  reflexivity.
Qed.

Lemma Forall_imap_all {A B} (P : B -> Prop) (l : list A) :
  forall f : nat -> A -> B,
    (forall i x, P (f i x)) -> Forall P (imap f l).
Proof.
  induction l as [|a l IH]; intros f Hf; cbn [imap].
  - apply List.Forall_nil.
  - apply List.Forall_cons; [apply Hf|]. apply IH. intros i x. apply Hf.
Qed.

(** X5: after every pass each of the six axes has exactly one of its two
    curves active. *)
Theorem pass_leaves_one_curve_active_per_axis `{!CurveActive Curve} st :
  length (m st) = 6 ->
  Forall (fun axis =>
            xorb (isActive (curve axis)) (isActive (curveAlt axis)) = true)
         (m (logic st)).
Proof.
  intros Hlen. rewrite logic_m, (map_pose_axes _ _ _ Hlen).
  apply Forall_imap_all. intros i axis. apply map_one_active.
Qed.

Lemma deactivate_axes mp :
  length mp = 6 ->
  foldl deactivate_step mp (seq 0 6) =
    (fun axis =>
       {| opts := opts axis;
          curve := setTrackingActive false (curve axis);
          curveAlt := setTrackingActive false (curveAlt axis) |}) <$> mp.
Proof.
  intros Hmp.
  destruct (length6_inv _ Hmp) as (a0 & a1 & a2 & a3 & a4 & a5 & ->).
  reflexivity.
Qed.

(** X6: when [run] returns, both curves of each of the six axes have been
    told they are inactive, and nothing was done to them afterwards. *)
Theorem run_leaves_all_curves_inactive `{!CurveActive Curve}
  (sched : list Z) st :
  length (m st) = 6 ->
  Forall (fun axis =>
            isActive (curve axis) = false /\ isActive (curveAlt axis) = false)
         (m (run sched st)).
Proof.
  intros Hlen.
  destruct (run_loop_opts sched st) as (_ & _ & Hl & _).
  unfold run, run_stop.
  set (st0 := zero_newpose (run_loop sched st)).
  assert (Hl0 : length (m (logic st0)) = 6).
  { rewrite logic_m_length. subst st0. unfold zero_newpose.
    cbn [m set_newpose]. by rewrite Hl. }
  set (X := logic st0) in *. clearbody X.
  unfold set_m, add_event. cbn [m].
  rewrite (deactivate_axes _ Hl0).
  apply Forall_fmap, Forall_forall. intros axis _. simpl.
  by rewrite !isActive_set.
Qed.

(** ** What readers of the published poses get *)

Lemma length_ge6_inv {A} (l : list A) :
  6 <= length l ->
  exists a b c d e f k, l = [a; b; c; d; e; f] ++ k.
Proof.
  destruct l as [|a [|b [|c [|d [|e [|f k]]]]]]; simpl; try lia.
  intros _. by exists a, b, c, d, e, f, k.
Qed.

Lemma get_raw_and_mapped_poses_cells st (mapped raw : list double) :
  length (output_pose st) = 6 ->
  length (raw_6dof st) = 6 ->
  6 <= length mapped ->
  6 <= length raw ->
  get_raw_and_mapped_poses st mapped raw =
    (output_pose st ++ drop 6 mapped, raw_6dof st ++ drop 6 raw).
Proof.
  intros Ho Hr Hm Hw. unfold get_raw_and_mapped_poses.
  destruct (length6_inv _ Ho) as (o0 & o1 & o2 & o3 & o4 & o5 & ->).
  destruct (length6_inv _ Hr) as (r0 & r1 & r2 & r3 & r4 & r5 & ->).
  destruct (length_ge6_inv _ Hm) as (m0 & m1 & m2 & m3 & m4 & m5 & km & ->).
  destruct (length_ge6_inv _ Hw) as (w0 & w1 & w2 & w3 & w4 & w5 & kw & ->).
  reflexivity.
Qed.

Lemma acquire_raw_cells st :
  wf st ->
  acquire_raw st = (if enabledp st then newpose st else final_raw st).
Proof.
  intros (_ & _ & Hn & Hr). unfold acquire_raw.
  destruct (enabledp st); [|done].
  destruct (length6_inv _ Hn) as (n0 & n1 & n2 & n3 & n4 & n5 & ->).
  destruct (length6_inv _ Hr) as (r0 & r1 & r2 & r3 & r4 & r5 & ->).
  reflexivity.
Qed.

(** X4: after a pass, [get_raw_and_mapped_poses] writes into the first six
    cells of [mapped] the pose the pass handed to the protocol and into the
    first six cells of [raw] the raw pose the pass worked on ([newpose] if
    enabled, the earlier raw pose if not); further cells of the two arrays
    are untouched. *)
Theorem published_poses_follow_the_pass st (mapped raw : list double) :
  wf st ->
  6 <= length mapped ->
  6 <= length raw ->
  let r := get_raw_and_mapped_poses (logic st) mapped raw in
  last (trace (logic st)) = Some (Protocol_pose (take 6 (fst r))) /\
  take 6 (snd r) = (if enabledp st then newpose st else final_raw st) /\
  drop 6 (fst r) = drop 6 mapped /\
  drop 6 (snd r) = drop 6 raw.
Proof.
  intros Hwf Hm Hw r.
  assert (Ho : length (output_pose (logic st)) = 6)
    by (rewrite logic_output_pose; apply remap_length).
  assert (Hraw : raw_6dof (logic st) =
                 (if enabledp st then newpose st else final_raw st))
    by (rewrite logic_raw_6dof; by apply acquire_raw_cells).
  assert (Hr : length (raw_6dof (logic st)) = 6).
  { rewrite Hraw. destruct Hwf as (_ & _ & Hn & Hf). by destruct (enabledp st). }
  pose proof (logic_trace st) as Htr.
  subst r. revert Ho Hraw Hr Htr.
  generalize (logic st). intros X Ho Hraw Hr Htr.
  rewrite (get_raw_and_mapped_poses_cells X mapped raw Ho Hr Hm Hw).
  cbn [fst snd].
  rewrite !take_app_length', !drop_app_length' by done.
  rewrite Htr, Hraw. split; [apply last_snoc|done].
Qed.

(** ** The run as a whole *)

Lemma sleeps_of_app (tr1 tr2 : list event) :
  sleeps_of (tr1 ++ tr2) = sleeps_of tr1 ++ sleeps_of tr2.
Proof. apply omap_app. Qed.

Lemma poses_of_app (tr1 tr2 : list event) :
  poses_of (tr1 ++ tr2) = poses_of tr1 ++ poses_of tr2.
Proof. apply omap_app. Qed.

Lemma sleeps_of_turn (p : Pose) (us : Z) :
  sleeps_of [Protocol_pose p; Usleep us] = [us].
Proof. reflexivity. Qed.

Lemma poses_of_turn (p : Pose) (us : Z) :
  poses_of [Protocol_pose p; Usleep us] = [p].
Proof. reflexivity. Qed.

Lemma sleeps_of_stop (p q : Pose) :
  sleeps_of [Protocol_pose p; Protocol_pose q] = [].
Proof. reflexivity. Qed.

Lemma poses_of_stop (p q : Pose) :
  poses_of [Protocol_pose p; Protocol_pose q] = [p; q].
Proof. reflexivity. Qed.

Lemma iteration_newpose (elapsed : Z) st :
  newpose (iteration elapsed st) = fst (data (newpose st) (pTracker st)) /\
  pTracker (iteration elapsed st) = snd (data (newpose st) (pTracker st)).
Proof.
  unfold iteration, add_event. cbn [newpose pTracker].
  rewrite logic_newpose, logic_pTracker. done.
Qed.

Lemma run_stop_pTracker st : pTracker (run_stop st) = pTracker st.
Proof.
  unfold run_stop.
  pose proof (logic_pTracker (zero_newpose st)) as Hp.
  set (X := logic (zero_newpose st)) in *. clearbody X.
  unfold set_m, add_event. cbn [pTracker]. by rewrite Hp.
Qed.

(** X7: if the stop flag is already set when [run] starts, the loop body is
    never entered: the source is not polled and nothing sleeps, yet the
    shutdown pass and the zero pose are still sent. *)
Theorem run_with_stop_already_requested (sched : list Z) st :
  should_quit st = true ->
  run_loop sched st = st /\
  pTracker (run sched st) = pTracker st /\
  sleeps_of (trace (run sched st)) = sleeps_of (trace st) /\
  trace (run sched st) =
    trace st ++ [ Protocol_pose (output_pose (logic (zero_newpose st)));
                  Protocol_pose [0; 0; 0; 0; 0; 0]%float ].
Proof.
  intros Hq.
  assert (Hloop : run_loop sched st = st)
    by (destruct sched; cbn [run_loop]; by rewrite Hq).
  unfold run. rewrite Hloop, run_stop_pTracker, run_stop_trace.
  rewrite sleeps_of_app, sleeps_of_stop. by rewrite app_nil_r.
Qed.

Lemma run_loop_events (sched : list Z) :
  forall st,
    should_quit st = false ->
    sleeps_of (trace (run_loop sched st)) =
      sleeps_of (trace st) ++ (usleep_arg <$> sched) /\
    length (poses_of (trace (run_loop sched st))) =
      length (poses_of (trace st)) + length sched.
Proof.
  induction sched as [|e sched IH]; intros st Hq; cbn [run_loop]; rewrite Hq.
  - cbn [trace set_should_quit fmap list_fmap length].
    rewrite app_nil_r. split; [done|lia].
  - destruct (IH (iteration e st)
                (eq_trans (iteration_should_quit e st) Hq)) as [Hs Hp].
    rewrite Hs, Hp, iteration_trace, sleeps_of_app, poses_of_app.
    rewrite length_app, sleeps_of_turn, poses_of_turn.
    cbn [fmap list_fmap length]. rewrite <- app_assoc. split; [done|lia].
Qed.

(** X8: a run that takes [n] turns of the loop sleeps exactly [n] times,
    once per turn with that turn's argument and never during the shutdown,
    and makes exactly [n + 2] protocol calls. *)
Theorem run_event_counts (sched : list Z) st :
  should_quit st = false ->
  sleeps_of (trace (run sched st)) =
    sleeps_of (trace st) ++ (usleep_arg <$> sched) /\
  length (poses_of (trace (run sched st))) =
    length (poses_of (trace st)) + length sched + 2.
Proof.
  intros Hq. destruct (run_loop_events sched st Hq) as [Hs Hp].
  unfold run. rewrite run_stop_trace, sleeps_of_app, poses_of_app, length_app.
  rewrite Hs, Hp, sleeps_of_stop, poses_of_stop. cbn [length].
  rewrite app_nil_r. split; [done|lia].
Qed.

(** X9: with a timer that does not run backwards the loop paces itself:
    a turn that took less than the period sleeps for the rest of it, a turn
    that took the period or longer sleeps one microsecond, and no sleep is
    longer than the period. *)
Theorem usleep_paces_the_period (elapsed : Z) :
  in_long long_bits elapsed ->
  (0 <= elapsed)%Z ->
  usleep_arg elapsed =
    (if (elapsed ÷ 1000 <? sleep_ms * 1000)%Z
     then (sleep_ms * 1000 - elapsed ÷ 1000)%Z else 1%Z) /\
  (1 <= usleep_arg elapsed <= sleep_ms * 1000)%Z.
Proof.
  intros He Hpos. rewrite (usleep_arg_exact elapsed He). unfold sleep_ms.
  pose proof (Z.quot_pos elapsed 1000 Hpos ltac:(lia)) as Hq.
  destruct (Z.ltb_spec (elapsed ÷ 1000) (3 * 1000)); lia.
Qed.

Lemma run_loop_keeps_centering (sched : list Z) :
  forall st,
    centerp st = false ->
    centerp (run_loop sched st) = false /\
    t_b (run_loop sched st) = t_b st /\ q_b (run_loop sched st) = q_b st.
Proof.
  induction sched as [|e sched IH]; intros st Hc; cbn [run_loop].
  - by destruct (should_quit st).
  - destruct (should_quit st); [done|].
    destruct (IH (iteration e st) (iteration_centerp e st)) as (H1 & H2 & H3).
    destruct (iteration_keeps_centering e st Hc) as [H4 H5].
    rewrite H1, H2, H3, H4, H5. done.
Qed.

(** X10: without a pending center request the whole run, shutdown pass
    included, leaves [t_b] and [q_b] as they were. *)
Theorem run_keeps_centering (sched : list Z) st :
  centerp st = false ->
  centerp (run sched st) = false /\
  t_b (run sched st) = t_b st /\ q_b (run sched st) = q_b st.
Proof.
  intros Hc.
  destruct (run_loop_keeps_centering sched st Hc) as (H1 & H2 & H3).
  unfold run, run_stop.
  set (st0 := zero_newpose (run_loop sched st)).
  assert (Hc0 : centerp st0 = false) by exact H1.
  destruct (logic_keeps_centering st0 Hc0) as [Ht Hq].
  pose proof (logic_centerp st0) as Hcl.
  set (X := logic st0) in *. clearbody X.
  unfold set_m, add_event. cbn [centerp t_b q_b].
  rewrite Hcl, Ht, Hq. subst st0. unfold zero_newpose.
  cbn [t_b q_b set_newpose]. by rewrite H2, H3.
Qed.

(** X11: when the loop is left with the tracker enabled, the shutdown pass
    works on the zeroed raw pose, and that is what stays published as the
    raw pose. *)
Theorem enabled_shutdown_pass_runs_on_zero_pose (sched : list Z) st :
  wf st ->
  enabledp st = true ->
  final_raw (run sched st) = [0; 0; 0; 0; 0; 0]%float /\
  raw_6dof (run sched st) = [0; 0; 0; 0; 0; 0]%float.
Proof.
  intros Hwf Hen.
  pose proof (wf_run_loop sched st Hwf) as (Hm & Ht & Hn & Hr).
  destruct (run_loop_opts sched st) as (_ & _ & _ & He).
  unfold run, run_stop.
  set (st0 := zero_newpose (run_loop sched st)).
  assert (Hwf0 : wf st0) by (repeat split; try done; subst st0;
    by rewrite zero_newpose_cells).
  assert (Hraw : acquire_raw st0 = [0; 0; 0; 0; 0; 0]%float).
  { rewrite (acquire_raw_cells st0 Hwf0).
    replace (enabledp st0) with true
      by (subst st0; unfold zero_newpose; cbn [enabledp set_newpose];
          by rewrite He, Hen).
    subst st0. by apply zero_newpose_cells. }
  pose proof (logic_final_raw st0) as Hf.
  pose proof (logic_raw_6dof st0) as Hd.
  set (X := logic st0) in *. clearbody X.
  unfold set_m, add_event. cbn [final_raw raw_6dof].
  by rewrite Hf, Hd, Hraw.
Qed.

(** X12: the loop polls the raw source exactly once per turn, each time on
    [newpose] as the previous poll left it; a pass changes neither. *)
Theorem source_polled_once_per_turn (sched : list Z) :
  forall st,
    should_quit st = false ->
    (newpose (run_loop sched st), pTracker (run_loop sched st)) =
      Nat.iter (length sched)
               (fun p => data (fst p) (snd p))
               (newpose st, pTracker st).
Proof.
  induction sched as [|e sched IH]; intros st Hq; cbn [run_loop]; rewrite Hq.
  - reflexivity.
  - rewrite (IH (iteration e st) (eq_trans (iteration_should_quit e st) Hq)).
    destruct (iteration_newpose e st) as [-> ->].
    cbn [length]. rewrite Nat.iter_succ_r. cbn [fst snd].
    by destruct (data (newpose st) (pTracker st)).
Qed.

(** ** The raw pose through the loop *)

Lemma iteration_final_raw (elapsed : Z) st :
  final_raw (iteration elapsed st) =
    acquire_raw (set_newpose (fst (data (newpose st) (pTracker st)))
                             (snd (data (newpose st) (pTracker st))) st) /\
  raw_6dof (iteration elapsed st) = final_raw (iteration elapsed st).
Proof.
  unfold iteration, add_event. cbn [final_raw raw_6dof].
  rewrite logic_final_raw, logic_raw_6dof. done.
Qed.

Lemma run_stop_final_raw st :
  final_raw (run_stop st) = acquire_raw (zero_newpose st) /\
  raw_6dof (run_stop st) = acquire_raw (zero_newpose st).
Proof.
  unfold run_stop.
  pose proof (logic_final_raw (zero_newpose st)) as Hf.
  pose proof (logic_raw_6dof (zero_newpose st)) as Hd.
  set (X := logic (zero_newpose st)) in *. clearbody X.
  unfold set_m, add_event. cbn [final_raw raw_6dof]. by rewrite Hf, Hd.
Qed.

Lemma run_loop_disabled_final_raw (sched : list Z) :
  forall st,
    enabledp st = false ->
    final_raw (run_loop sched st) = final_raw st.
Proof.
  induction sched as [|e sched IH]; intros st Hen; cbn [run_loop].
  - by destruct (should_quit st).
  - destruct (should_quit st); [done|].
    rewrite IH by (by rewrite iteration_enabledp).
    destruct (iteration_final_raw e st) as [-> _].
    unfold acquire_raw. cbn [enabledp final_raw set_newpose]. by rewrite Hen.
Qed.

(** X13: while the tracker is disabled the raw pose is frozen: whatever the
    source delivers during the loop, and although the shutdown zeroes
    [newpose], [final_raw] is after the run what it was before, and it is
    what is published as the raw pose. *)
Theorem disabled_run_freezes_raw_pose (sched : list Z) st :
  enabledp st = false ->
  final_raw (run sched st) = final_raw st /\
  raw_6dof (run sched st) = final_raw st.
Proof.
  intros Hen.
  destruct (run_loop_opts sched st) as (_ & _ & _ & He).
  pose proof (run_loop_disabled_final_raw sched st Hen) as Hf.
  unfold run. destruct (run_stop_final_raw (run_loop sched st)) as [-> ->].
  unfold acquire_raw, zero_newpose. cbn [enabledp final_raw set_newpose].
  by rewrite He, Hen, Hf.
Qed.

(** X14: with the tracker enabled, a turn of the loop makes what the source
    has just written into [newpose] the raw pose of the pass and publishes
    it as the raw pose. *)
Theorem enabled_turn_publishes_polled_sample (elapsed : Z) st :
  wf st ->
  enabledp st = true ->
  final_raw (iteration elapsed st) = fst (data (newpose st) (pTracker st)) /\
  raw_6dof (iteration elapsed st) = fst (data (newpose st) (pTracker st)).
Proof.
  intros (Hm & Ht & Hn & Hr) Hen.
  destruct (iteration_final_raw elapsed st) as [Hf Hd].
  rewrite Hd, Hf.
  set (st0 := set_newpose _ _ st).
  assert (Hwf0 : wf st0).
  { repeat split; try done. subst st0; cbn [newpose set_newpose].
    by rewrite data_length. }
  rewrite (acquire_raw_cells st0 Hwf0).
  subst st0. cbn [enabledp newpose set_newpose]. by rewrite Hen.
Qed.

End Pipeline.

Transparent logic.

Section PipelineOnSample.

Import Sample.

Local Open Scope float_scope.

(** A stop requested before the first turn: no sleep, two poses. *)
Example stopped_run_trace :
  trace (run [0%Z; 0%Z] stopped_state) =
    [ Protocol_pose [0; 0; 0; 0; 0; 0]; Protocol_pose [0; 0; 0; 0; 0; 0] ].
Proof. vm_compute. reflexivity. Qed.

Lemma out_of_range_src_sends_zero_witness :
  length (m dropped_state) = 6%nat /\
  m dropped_state !! 2%nat = Some (axis0 (-1)) /\
  (src (opts (axis0 (-1))) < 0 \/ 6 <= src (opts (axis0 (-1))))%Z /\
  pass_centered_ dropped_state !!! 2%nat = 3 /\
  output_pose (logic dropped_state) !!! 2%nat = 0.
Proof.
  assert (H1 : length (m dropped_state) = 6%nat) by reflexivity.
  assert (H2 : m dropped_state !! 2%nat = Some (axis0 (-1))) by reflexivity.
  assert (H3 : (src (opts (axis0 (-1))) < 0 \/ 6 <= src (opts (axis0 (-1))))%Z)
    by (left; reflexivity).
  destruct (out_of_range_src_sends_zero dropped_state 2 (axis0 (-1)) H1 H2 H3)
    as [Hz _].
  split; [exact H1|]. split; [exact H2|]. split; [exact H3|].
  split; [vm_compute; reflexivity|exact Hz].
Defined.

Lemma identity_axes_sources :
  forall (i : nat) (axis : Mapping FlagCurve),
    m centering_state !! i = Some axis -> src (opts axis) = Z.of_nat i.
Proof.
  intros i axis.
  destruct i as [|[|[|[|[|[|i]]]]]]; simpl; intros E;
    try discriminate E; injection E as <-; reflexivity.
Qed.

Lemma identity_remap_sends_compensated_pose_witness :
  length (m centering_state) = 6%nat /\
  (forall (i : nat) (axis : Mapping FlagCurve),
     m centering_state !! i = Some axis -> src (opts axis) = Z.of_nat i) /\
  output_pose (logic centering_state) = pass_centered_ centering_state /\
  last (trace (logic centering_state)) =
    Some (Protocol_pose (pass_centered_ centering_state)).
Proof.
  assert (H1 : length (m centering_state) = 6%nat) by reflexivity.
  exact (conj H1
           (conj identity_axes_sources
              (identity_remap_sends_compensated_pose centering_state H1
                 identity_axes_sources))).
Defined.

Lemma published_poses_follow_the_pass_witness :
  wf swapped_state /\
  6 <= length [9; 9; 9; 9; 9; 9; 9] /\
  6 <= length [8; 8; 8; 8; 8; 8] /\
  let r := get_raw_and_mapped_poses (logic swapped_state)
             [9; 9; 9; 9; 9; 9; 9] [8; 8; 8; 8; 8; 8] in
  last (trace (logic swapped_state)) = Some (Protocol_pose (take 6 (fst r))) /\
  take 6 (snd r) =
    (if enabledp swapped_state then newpose swapped_state
     else final_raw swapped_state) /\
  drop 6 (fst r) = drop 6 [9; 9; 9; 9; 9; 9; 9] /\
  drop 6 (snd r) = drop 6 [8; 8; 8; 8; 8; 8].
Proof.
  assert (H1 : wf swapped_state) by (repeat split).
  assert (H2 : 6 <= length [9; 9; 9; 9; 9; 9; 9]) by (simpl; lia).
  assert (H3 : 6 <= length [8; 8; 8; 8; 8; 8]) by (simpl; lia).
  exact (conj H1 (conj H2 (conj H3
           (published_poses_follow_the_pass swapped_state
              [9; 9; 9; 9; 9; 9; 9] [8; 8; 8; 8; 8; 8] H1 H2 H3)))).
Defined.

Lemma run_leaves_all_curves_inactive_witness :
  length (m (start no_comp identity_axes [sample1])) = 6%nat /\
  Forall (fun axis : Mapping FlagCurve =>
            isActive (curve axis) = false /\ isActive (curveAlt axis) = false)
         (m (run [0%Z] (start no_comp identity_axes [sample1]))).
Proof.
  assert (H1 : length (m (start no_comp identity_axes [sample1])) = 6%nat)
    by reflexivity.
  exact (conj H1
           (run_leaves_all_curves_inactive [0%Z]
              (start no_comp identity_axes [sample1]) H1)).
Defined.

Lemma pass_leaves_one_curve_active_per_axis_witness :
  length (m swapped_state) = 6%nat /\
  Forall (fun axis : Mapping FlagCurve =>
            xorb (isActive (curve axis)) (isActive (curveAlt axis)) = true)
         (m (logic swapped_state)).
Proof.
  assert (H1 : length (m swapped_state) = 6%nat) by reflexivity.
  exact (conj H1 (pass_leaves_one_curve_active_per_axis swapped_state H1)).
Defined.

Lemma run_with_stop_already_requested_witness :
  should_quit stopped_state = true /\
  run_loop [0%Z; 0%Z] stopped_state = stopped_state /\
  pTracker (run [0%Z; 0%Z] stopped_state) = pTracker stopped_state /\
  sleeps_of (trace (run [0%Z; 0%Z] stopped_state)) =
    sleeps_of (trace stopped_state) /\
  trace (run [0%Z; 0%Z] stopped_state) =
    trace stopped_state ++
    [ Protocol_pose (output_pose (logic (zero_newpose stopped_state)));
      Protocol_pose [0; 0; 0; 0; 0; 0] ].
Proof.
  exact (conj eq_refl
           (run_with_stop_already_requested [0%Z; 0%Z] stopped_state eq_refl)).
Defined.

Lemma run_event_counts_witness :
  should_quit (start no_comp identity_axes [sample1]) = false /\
  sleeps_of (trace (run [0%Z; 5000000%Z]
                       (start no_comp identity_axes [sample1]))) =
    sleeps_of (trace (start no_comp identity_axes [sample1])) ++
    (usleep_arg <$> [0%Z; 5000000%Z]) /\
  length (poses_of (trace (run [0%Z; 5000000%Z]
                              (start no_comp identity_axes [sample1])))) =
    (length (poses_of (trace (start no_comp identity_axes [sample1])))
     + length [0%Z; 5000000%Z] + 2)%nat.
Proof.
  exact (conj eq_refl
           (run_event_counts [0%Z; 5000000%Z]
              (start no_comp identity_axes [sample1]) eq_refl)).
Defined.

Lemma usleep_paces_the_period_witness :
  in_long long_bits 1234567 /\
  (0 <= 1234567)%Z /\
  usleep_arg 1234567 = 1766%Z /\
  (1 <= usleep_arg 1234567 <= sleep_ms * 1000)%Z.
Proof.
  assert (H1 : in_long long_bits 1234567)
    by (unfold in_long; simpl; lia).
  assert (H2 : (0 <= 1234567)%Z) by lia.
  exact (conj H1 (conj H2 (usleep_paces_the_period 1234567 H1 H2))).
Defined.

Lemma run_keeps_centering_witness :
  centerp (start no_comp identity_axes [sample1]) = false /\
  centerp (run [0%Z] (start no_comp identity_axes [sample1])) = false /\
  t_b (run [0%Z] (start no_comp identity_axes [sample1])) =
    t_b (start no_comp identity_axes [sample1]) /\
  q_b (run [0%Z] (start no_comp identity_axes [sample1])) =
    q_b (start no_comp identity_axes [sample1]).
Proof.
  exact (conj eq_refl
           (run_keeps_centering [0%Z]
              (start no_comp identity_axes [sample1]) eq_refl)).
Defined.

Lemma enabled_shutdown_pass_runs_on_zero_pose_witness :
  wf (start no_comp identity_axes [sample1]) /\
  enabledp (start no_comp identity_axes [sample1]) = true /\
  final_raw (run [0%Z] (start no_comp identity_axes [sample1])) =
    [0; 0; 0; 0; 0; 0] /\
  raw_6dof (run [0%Z] (start no_comp identity_axes [sample1])) =
    [0; 0; 0; 0; 0; 0].
Proof.
  assert (H1 : wf (start no_comp identity_axes [sample1])) by (repeat split).
  exact (conj H1 (conj eq_refl
           (enabled_shutdown_pass_runs_on_zero_pose [0%Z]
              (start no_comp identity_axes [sample1]) H1 eq_refl))).
Defined.

Lemma source_polled_once_per_turn_witness :
  should_quit (start no_comp identity_axes [sample1; [4; 5; 6; 0; 0; 0]]) =
    false /\
  (newpose (run_loop [0%Z; 0%Z]
              (start no_comp identity_axes [sample1; [4; 5; 6; 0; 0; 0]])),
   pTracker (run_loop [0%Z; 0%Z]
               (start no_comp identity_axes [sample1; [4; 5; 6; 0; 0; 0]]))) =
    Nat.iter (length [0%Z; 0%Z])
      (fun p : list float * list (list float) => data (fst p) (snd p))
      (newpose (start no_comp identity_axes [sample1; [4; 5; 6; 0; 0; 0]]),
       pTracker (start no_comp identity_axes [sample1; [4; 5; 6; 0; 0; 0]])).
Proof.
  exact (conj eq_refl
           (source_polled_once_per_turn [0%Z; 0%Z]
              (start no_comp identity_axes [sample1; [4; 5; 6; 0; 0; 0]])
              eq_refl)).
Defined.

Lemma disabled_run_freezes_raw_pose_witness :
  enabledp disabled_state = false /\
  final_raw disabled_state = [1; 2; 3; 0; 0; 0] /\
  final_raw (run [0%Z; 0%Z] disabled_state) = final_raw disabled_state /\
  raw_6dof (run [0%Z; 0%Z] disabled_state) = final_raw disabled_state.
Proof.
  split; [reflexivity|]. split; [vm_compute; reflexivity|].
  exact (disabled_run_freezes_raw_pose [0%Z; 0%Z] disabled_state eq_refl).
Defined.

Lemma enabled_turn_publishes_polled_sample_witness :
  wf (start no_comp identity_axes [sample1]) /\
  enabledp (start no_comp identity_axes [sample1]) = true /\
  final_raw (iteration 0 (start no_comp identity_axes [sample1])) =
    fst (data (newpose (start no_comp identity_axes [sample1]))
              (pTracker (start no_comp identity_axes [sample1]))) /\
  raw_6dof (iteration 0 (start no_comp identity_axes [sample1])) =
    fst (data (newpose (start no_comp identity_axes [sample1]))
              (pTracker (start no_comp identity_axes [sample1]))).
Proof.
  assert (H1 : wf (start no_comp identity_axes [sample1])) by (repeat split).
  exact (conj H1 (conj eq_refl
           (enabled_turn_publishes_polled_sample 0
              (start no_comp identity_axes [sample1]) H1 eq_refl))).
Defined.

(** The two polls of the sample source leave the second sample in
    [newpose] and the source empty. *)
Example source_sample_polls :
  Nat.iter 2
    (fun p : list float * list (list float) => data (fst p) (snd p))
    (Pose_new, [sample1; [4; 5; 6; 0; 0; 0]]) =
    ([4; 5; 6; 0; 0; 0], []).
Proof. vm_compute. reflexivity. Qed.

End PipelineOnSample.

End Tracker.
